(** * ParcelProcessor: a shallow embedding of [ParcelProcessor.py]

    The script compares the newest parcel date of El Dorado County with the
    newest local one, and when they differ downloads an extract, parses the
    free-text ownership columns of every row into owner, address, city,
    state, zip and country, derives the legacy parcel id and reloads the
    destination dataset.

    Modelling conventions.
    - A Python [str] is a [string]; a character is its code point, so the
      model covers the code points 0..255 and the character classes below
      are Python's Unicode classes restricted to that range.
    - The columns read by the cursor are strings (on a string [str(x)] is
      [x]); the columns written by the cursor are Python values, [None] or a
      string.
    - The local variables of [updateParcels] that the row loop assigns live
      across iterations, so the loop body is a function of the locals and of
      the row.
    - Calls on the collaborators (arcpy, shutil, smtplib, logging,
      requests) are recorded as events. Whether a geoprocessing call of
      arcpy, the deletion of the zip folder or the sending of a mail raises,
      the data the collaborators deliver and the values of the configuration
      are inputs of the model. The two update cursors are the row loops
      themselves: a row loop raises what its body raises. The
      [logging.debug] calls of the row loop are left out.
    - A [datetime] is a count of microseconds. What
      [datetime.fromtimestamp] makes of the remote date (the division by
      1000 in floating point, the rounding, the machine's own zone, the
      range it accepts) and the offsets of the Pacific zone are inputs. *)

From Stdlib Require Import Bool Arith ZArith List Ascii String DecimalString Lia.
Import ListNotations.

Local Open Scope string_scope.
Local Open Scope bool_scope.

(* ------------------------------------------------------------------ *)
(** ** Python strings *)

Module PyStr.

Definition code (c : ascii) : nat := nat_of_ascii c.

Definition between (lo hi : nat) (c : ascii) : bool :=
  (lo <=? code c)%nat && (code c <=? hi)%nat.

(** [str.lower] on one code point: A-Z, and the capital letters of the
    range 192..222 except the multiplication sign 215. *)
Definition lower_char (c : ascii) : ascii :=
  if between 65 90 c || (between 192 222 c && negb (code c =? 215)%nat)
  then ascii_of_nat (code c + 32)
  else c.

Fixpoint lower (s : string) : string :=
  match s with
  | EmptyString => EmptyString
  | String c s' => String (lower_char c) (lower s')
  end.

(** [s.startswith(p)] *)
Fixpoint startswith (s p : string) : bool :=
  match p, s with
  | EmptyString, _ => true
  | String a p', String b s' => Ascii.eqb a b && startswith s' p'
  | String _ _, EmptyString => false
  end.

(** [sub in s] *)
Fixpoint contains (sub s : string) : bool :=
  startswith s sub ||
  match s with
  | EmptyString => false
  | String _ s' => contains sub s'
  end.

(** [x in xs] for a list of strings *)
Definition mem (x : string) (xs : list string) : bool :=
  existsb (String.eqb x) xs.

(** The bounds of [s[start:stop]], clamped the way CPython's
    [PySlice_AdjustIndices] clamps them for step 1. *)
Definition adjust (len : Z) (dflt : Z) (i : option Z) : Z :=
  match i with
  | None => dflt
  | Some i =>
      if (i <? 0)%Z
      then (if (i + len <? 0)%Z then 0%Z else (i + len)%Z)
      else (if (len <=? i)%Z then len else i)
  end.

(** [s[start:stop]] *)
Definition slice (s : string) (start stop : option Z) : string :=
  let len := Z.of_nat (String.length s) in
  let a := adjust len 0%Z start in
  let b := adjust len len stop in
  if (a <? b)%Z
  then substring (Z.to_nat a) (Z.to_nat (b - a)) s
  else EmptyString.

(** [s] without its first [n] characters. *)
Fixpoint drop (n : nat) (s : string) : string :=
  match n, s with
  | S n', String _ s' => drop n' s'
  | _, _ => s
  end.

(** The first [n] characters of [s]. *)
Fixpoint take (n : nat) (s : string) : string :=
  match n, s with
  | S n', String c s' => String c (take n' s')
  | _, _ => EmptyString
  end.

End PyStr.

(* ------------------------------------------------------------------ *)
(** ** The fragment of Python's [re] that the script uses

  A backtracking matcher: [matches r s] lists, in the order in which
  Python tries them, the ways [r] can match a prefix of [s]; each way is
  the remaining input and the groups captured. *)

Module Re.
Import PyStr.

Inductive regex : Type :=
| Cls (p : ascii -> bool)                        (* one character of a class *)
| Lit (s : string)                               (* literal text *)
| Cat (a b : regex)                              (* a b *)
| Rep (p : ascii -> bool) (lo : nat) (hi : option nat) (greedy : bool)
                                                 (* class{lo,hi}, lazy with ? *)
| Grp (i : nat) (a : regex)                      (* ( a ), group number i *)
| Ahead (a : regex).                             (* (?= a ) *)

(** Character classes of a [str] pattern. *)
Definition dot (c : ascii) : bool := negb (code c =? 10)%nat.          (* .  *)
Definition digit (c : ascii) : bool := between 48 57 c.                (* \d, [0-9] *)
Definition nondigit (c : ascii) : bool := negb (digit c).              (* \D *)
Definition space (c : ascii) : bool :=                                 (* \s *)
  between 9 13 c || between 28 32 c || (code c =? 133)%nat || (code c =? 160)%nat.
Definition upper_AZ (c : ascii) : bool := between 65 90 c.             (* [A-Z] *)
Definition word (c : ascii) : bool :=                                  (* \w *)
  between 48 57 c || between 65 90 c || between 97 122 c || (code c =? 95)%nat
  || (code c =? 170)%nat || (code c =? 178)%nat || (code c =? 179)%nat
  || (code c =? 181)%nat || (code c =? 185)%nat || (code c =? 186)%nat
  || between 188 190 c || between 192 214 c || between 216 246 c
  || between 248 255 c.
Definition nonword (c : ascii) : bool := negb (word c).                (* \W *)
Definition not_x (c : ascii) : bool := negb (code c =? 120)%nat.       (* [^x] *)

Definition caps : Type := list (nat * string).
Definition way : Type := (string * caps)%type.

(** The inputs left after 0, 1, 2, ... characters of class [p], at most
    [hi] of them. *)
Fixpoint rep_tails (p : ascii -> bool) (hi : option nat) (s : string)
  : list string :=
  s :: match hi with
       | Some O => []
       | _ =>
           match s with
           | String c s' =>
               if p c then rep_tails p (option_map pred hi) s' else []
           | EmptyString => []
           end
       end.

Fixpoint matches (r : regex) (s : string) : list way :=
  match r with
  | Cls p =>
      match s with
      | String c s' => if p c then [(s', [])] else []
      | EmptyString => []
      end
  | Lit t =>
      if startswith s t
      then [(drop (String.length t) s, [])]
      else []
  | Cat a b =>
      flat_map (fun w1 : way =>
                  map (fun w2 : way => (fst w2, (snd w1 ++ snd w2)%list))
                      (matches b (fst w1)))
               (matches a s)
  | Rep p lo hi greedy =>
      let ts := skipn lo (rep_tails p hi s) in
      map (fun t => (t, [])) (if greedy then rev ts else ts)
  | Grp i a =>
      map (fun w : way =>
             (fst w,
              (snd w ++ [(i, take (String.length s - String.length (fst w)) s)])%list))
          (matches a s)
  | Ahead a =>
      match matches a s with
      | [] => []
      | w :: _ => [(s, snd w)]
      end
  end.

(** A match object: the text matched and the groups. *)
Record rmatch : Type := { whole : string; groups : caps }.

(** [re.search(r, s)]: the first way at the leftmost start that has one. *)
Fixpoint search (r : regex) (s : string) : option rmatch :=
  match matches r s with
  | w :: _ =>
      Some {| whole := take (String.length s - String.length (fst w)) s;
              groups := snd w |}
  | [] =>
      match s with
      | String _ s' => search r s'
      | EmptyString => None
      end
  end.

Fixpoint lookup (i : nat) (c : caps) : option string :=
  match c with
  | [] => None
  | (j, t) :: c' => if (i =? j)%nat then Some t else lookup i c'
  end.

(** The groups that a pattern defines, in the order in which they close. *)
Fixpoint defines (r : regex) : list nat :=
  match r with
  | Cat a b => (defines a ++ defines b)%list
  | Grp i a => (defines a ++ [i])%list
  | Ahead a => defines a
  | _ => []
  end.

Definition plus (p : ascii -> bool) : regex := Rep p 1 None true.      (* p+  *)
Definition star (p : ascii -> bool) : regex := Rep p 0 None true.      (* p*  *)
Definition plus_lazy (p : ascii -> bool) : regex := Rep p 1 None false. (* p+? *)
Definition range (p : ascii -> bool) (lo hi : nat) : regex :=
  Rep p lo (Some hi) true.                                             (* p{lo,hi} *)

End Re.

(* ------------------------------------------------------------------ *)
(** ** The row loop of [updateParcels]: the address parser *)

Module Parser.
Import PyStr Re.

(** The patterns of lines 78-82; the comments show each pattern with a
    blank between its parts. *)

(** [ (.+?) \s ([A-Z]{1,2}) \s (?=\d) ( .* ) ] *)
Definition cityStateZipRegex : regex :=
  Cat (Grp 1 (plus_lazy dot))
 (Cat (Cls space)
 (Cat (Grp 2 (range upper_AZ 1 2))
 (Cat (Cls space)
 (Cat (Ahead (Cls digit))
      (Grp 3 (star dot)))))).

(** [ ([^x]+) \W ( P \s* O BOX \W* [0-9]{1,6} ) ], one blank inside O BOX *)
Definition poBoxRegex : regex :=
  Cat (Grp 1 (plus not_x))
 (Cat (Cls nonword)
      (Grp 2 (Cat (Lit "P")
             (Cat (star space)
             (Cat (Lit "O BOX")
             (Cat (star nonword)
                  (range digit 1 6))))))).

(** [ ( \d{1,5} \D+ .+ ) ] *)
Definition addressRegex : regex :=
  Grp 1 (Cat (range digit 1 5) (Cat (plus nondigit) (plus dot))).

(** [ (.+?) \s ([A-Z]{1,2}) \s (CANADA) \s ( .* ) ] *)
Definition canadaRegex : regex :=
  Cat (Grp 1 (plus_lazy dot))
 (Cat (Cls space)
 (Cat (Grp 2 (range upper_AZ 1 2))
 (Cat (Cls space)
 (Cat (Grp 3 (Lit "CANADA"))
 (Cat (Cls space)
      (Grp 4 (star dot))))))).

(** [ (.+?) \s (BRAZIL) \s ( .* ) ] *)
Definition brazilRegex : regex :=
  Cat (Grp 1 (plus_lazy dot))
 (Cat (Cls space)
 (Cat (Grp 2 (Lit "BRAZIL"))
 (Cat (Cls space)
      (Grp 3 (star dot))))).

(** Line 85. *)
Definition countriesList : list string := ["japan"].

(** A Python value held by a variable or written to a column. *)
Inductive value : Type :=
| VNone
| VStr (s : string).

Inductive exn : Type :=
| AttributeError                      (* [.group] on [None] *)
| UnboundLocalError (name : string)   (* a local read before any assignment *)
| StopIteration                       (* [next] on an exhausted cursor *)
| AmbiguousTimeError
| NonExistentTimeError
| ValueError (msg : string)
| OtherError (msg : string).          (* raised by a collaborator *)

(** The columns the cursor reads: row[0..4] and row[11]. *)
Record Row : Type := {
  owner_name : string;
  mail_addr1 : string;
  mail_addr2 : string;
  mail_addr3 : string;
  mail_addr4 : string;
  prcl_id : string
}.

(** The columns the cursor writes: row[5..10]. *)
Record Ownership : Type := {
  owner : value;
  owner_address : value;
  owner_city : value;
  owner_state : value;
  owner_zip : value;
  owner_country : value
}.

(** The six locals that outlive an iteration; [None] is unbound. *)
Record Locals : Type := {
  v_owner : option value;
  v_address : option value;
  v_city : option value;
  v_state : option value;
  v_zipCode : option value;
  v_country : option value
}.

Definition unbound : Locals :=
  {| v_owner := None; v_address := None; v_city := None;
     v_state := None; v_zipCode := None; v_country := None |}.

(** How a piece of the loop body ends: normally, by [continue], or by
    raising. *)
Inductive flow (A : Type) : Type :=
| Next (a : A) (l : Locals)
| Continue (l : Locals)
| Throw (e : exn).
Arguments Next {A} a l.
Arguments Continue {A} l.
Arguments Throw {A} e.

Definition P (A : Type) : Type := Locals -> flow A.

Definition ret {A} (a : A) : P A := fun l => Next a l.

Definition bind {A B} (c : P A) (k : A -> P B) : P B :=
  fun l =>
    match c l with
    | Next a l' => k a l'
    | Continue l' => Continue l'
    | Throw e => Throw e
    end.

Definition continue {A} : P A := fun l => Continue l.
Definition raise {A} (e : exn) : P A := fun _ => Throw e.

Declare Scope parse_scope.
Delimit Scope parse_scope with parse.
Notation "x <- c ;; k" := (bind c (fun x => k))
  (at level 61, c at next level, right associativity) : parse_scope.
Notation "c ;; k" := (bind c (fun _ => k))
  (at level 61, right associativity) : parse_scope.

Inductive var : Type := Owner | Address | City | State | ZipCode | Country.

Definition var_name (x : var) : string :=
  match x with
  | Owner => "owner" | Address => "address" | City => "city"
  | State => "state" | ZipCode => "zipCode" | Country => "country"
  end.

Definition get (x : var) (l : Locals) : option value :=
  match x with
  | Owner => v_owner l | Address => v_address l | City => v_city l
  | State => v_state l | ZipCode => v_zipCode l | Country => v_country l
  end.

Definition set (x : var) (v : value) (l : Locals) : Locals :=
  let o := Some v in
  match x with
  | Owner   => {| v_owner := o; v_address := v_address l; v_city := v_city l;
                  v_state := v_state l; v_zipCode := v_zipCode l; v_country := v_country l |}
  | Address => {| v_owner := v_owner l; v_address := o; v_city := v_city l;
                  v_state := v_state l; v_zipCode := v_zipCode l; v_country := v_country l |}
  | City    => {| v_owner := v_owner l; v_address := v_address l; v_city := o;
                  v_state := v_state l; v_zipCode := v_zipCode l; v_country := v_country l |}
  | State   => {| v_owner := v_owner l; v_address := v_address l; v_city := v_city l;
                  v_state := o; v_zipCode := v_zipCode l; v_country := v_country l |}
  | ZipCode => {| v_owner := v_owner l; v_address := v_address l; v_city := v_city l;
                  v_state := v_state l; v_zipCode := o; v_country := v_country l |}
  | Country => {| v_owner := v_owner l; v_address := v_address l; v_city := v_city l;
                  v_state := v_state l; v_zipCode := v_zipCode l; v_country := o |}
  end.

(** [x = v] *)
Definition assign (x : var) (v : value) : P unit :=
  fun l => Next tt (set x v l).

(** Reading the local [x]. *)
Definition read (x : var) : P value :=
  fun l =>
    match get x l with
    | Some v => Next v l
    | None => Throw (UnboundLocalError (var_name x))
    end.

(** [m.group(i)]: [m] is what [re.search] returned, a match or [None]. *)
Definition group (m : option rmatch) (i : nat) : P value :=
  match m with
  | None => raise AttributeError
  | Some m =>
      match lookup i (groups m) with
      | Some t => ret (VStr t)
      | None => ret VNone
      end
  end.

(** [m is None] *)
Definition is_none (m : option rmatch) : bool :=
  match m with
  | None => true
  | Some _ => false
  end.

(** [x = m.group(i)] *)
Definition assign_group (x : var) (m : option rmatch) (i : nat) : P unit :=
  bind (group m i) (assign x).

Local Open Scope parse_scope.

Definition assign_str (x : var) (s : string) : P unit := assign x (VStr s).

(** The guards of the [if]/[elif] chain of lines 184-299, tried in this
    order; the first one that holds selects the rung. *)
Inductive rung : Type :=
| MailAddr4      (* line 184: row[4] != ' ' *)
| MailAddr3      (* line 225: row[3] != ' ' *)
| UnitedStates   (* line 270: row[0] == 'UNITED STATES OF AMERICA' *)
| BlankOwner     (* line 283: row[0] == ' ' *)
| BlankAddr1     (* line 290: row[1] == ' ' *)
| MailAddr2.     (* line 299: else *)

Definition ladder (row : Row) : rung :=
  if negb (mail_addr4 row =? " ") then MailAddr4
  else if negb (mail_addr3 row =? " ") then MailAddr3
  else if owner_name row =? "UNITED STATES OF AMERICA" then UnitedStates
  else if owner_name row =? " " then BlankOwner
  else if mail_addr1 row =? " " then BlankAddr1
  else MailAddr2.

(** Lines 186-222. *)
Definition rung_mail_addr4 (row : Row) : P unit :=
  let row3 := mail_addr3 row in
  let row4 := mail_addr4 row in
  if negb (row4 =? "UNKNOWN") && negb (mem (lower row4) countriesList) then
    let cityStateZip := search cityStateZipRegex row4 in
    match cityStateZip with
    | Some _ =>
        assign_group City cityStateZip 1 ;;
        assign_group State cityStateZip 2 ;;
        assign_group ZipCode cityStateZip 3 ;;
        assign_str Country ""
    | None => continue
    end ;;
    (if startswith row3 "PO" || startswith row3 "P O" then
       assign_str Address row3
     else if contains "PO BOX" row3 || contains "P O BOX" row3
             || contains "P.O. BOX" row3 then
       assign_str Address row3
     else
       let add := search addressRegex row3 in
       assign_group Address add 1) ;;
    assign_str Owner (owner_name row ++ " " ++ mail_addr1 row ++ " " ++ mail_addr2 row)
  else if mem (lower row4) countriesList then
    assign_str Country row4 ;;
    assign_str State row3 ;;
    assign_str City (mail_addr2 row) ;;
    assign_str Address (mail_addr1 row) ;;
    assign_str Owner (owner_name row) ;;
    assign_str ZipCode ""
  else
    assign_str Owner (owner_name row) ;;
    assign_str Address "" ;;
    assign_str City "" ;;
    assign_str State "" ;;
    assign_str ZipCode "" ;;
    assign_str Country "".

(** Lines 225-267. *)
Definition rung_mail_addr3 (row : Row) : P unit :=
  let cityStateZip := search cityStateZipRegex (mail_addr3 row) in
  match cityStateZip with
  | None =>
      assign_str Country (mail_addr3 row) ;;
      assign_str Owner (owner_name row) ;;
      assign_str Address (mail_addr1 row) ;;
      assign_str City (mail_addr2 row) ;;
      assign_str State "" ;;
      assign_str ZipCode ""
  | Some _ =>
      assign_str Country "" ;;
      let row2 :=
        if startswith (mail_addr2 row) " "
        then slice (mail_addr2 row) (Some 1%Z) None
        else mail_addr2 row in
      assign_group City cityStateZip 1 ;;
      assign_group State cityStateZip 2 ;;
      assign_group ZipCode cityStateZip 3 ;;
      (if startswith row2 "PO" || startswith row2 "P O" || startswith row2 "P.O." then
         assign_str Address row2
       else if contains "PO BOX" row2 || contains "P O BOX" row2
               || startswith row2 "ONE " || startswith row2 "TWO " then
         assign_str Address row2
       else
         let add := search addressRegex row2 in
         match add with
         | None => assign_str Address "None"
         | Some _ => assign_group Address add 1
         end) ;;
      assign_str Owner (owner_name row ++ " " ++ mail_addr1 row)
  end.

(** Lines 270-282. *)
Definition rung_united_states (row : Row) : P unit :=
  let cityStateZip := search cityStateZipRegex (mail_addr2 row) in
  assign_str Owner (owner_name row) ;;
  assign_str Address (mail_addr1 row) ;;
  match cityStateZip with
  | None =>
      assign_str City "" ;;
      assign_str State "" ;;
      assign_str ZipCode ""
  | Some _ =>
      assign_group City cityStateZip 1 ;;
      assign_group State cityStateZip 2 ;;
      assign_group ZipCode cityStateZip 3
  end ;;
  assign_str Country "".

(** Lines 283-289. *)
Definition rung_blank_owner : P unit :=
  assign_str Owner "" ;;
  assign_str Address "" ;;
  assign_str City "" ;;
  assign_str State "" ;;
  assign_str ZipCode "" ;;
  assign_str Country "".

(** Lines 290-296. *)
Definition rung_blank_addr1 (row : Row) : P unit :=
  assign_str Owner (owner_name row) ;;
  assign_str Address "" ;;
  assign_str City "" ;;
  assign_str State "" ;;
  assign_str ZipCode "" ;;
  assign_str Country "".

(** Lines 329-360: line 2 parsed as city, state and zip. *)
Definition mail_addr2_domestic (row : Row) (cityStateZip : option rmatch)
  : P unit :=
  assign_str Country "" ;;
  assign_group City cityStateZip 1 ;;
  assign_group State cityStateZip 2 ;;
  assign_group ZipCode cityStateZip 3 ;;
  let row1 :=
    if startswith (mail_addr1 row) " "
    then slice (mail_addr1 row) (Some 1%Z) None
    else mail_addr1 row in
  if startswith row1 "PO" || startswith row1 "P.O." || startswith row1 "P O"
     || startswith row1 "P  O" then
    assign_str Address (mail_addr1 row)
  else if contains "PO BOX" row1 || contains "P O BOX" row1 then
    let poBox := search poBoxRegex row1 in
    match poBox with
    | None => assign_str Address row1
    | Some _ => assign_group Address poBox 2
    end
  else
    let add := search addressRegex row1 in
    if is_none add || startswith row1 "ONE" then assign_str Address row1
    else assign_group Address add 1.

(** Lines 316-327: line 2 did not parse; two [if]s in a row, no [else]. *)
Definition mail_addr2_foreign (row2 : string) : P unit :=
  (if contains "CANADA" row2 then
     let cityStateZip := search canadaRegex row2 in
     assign_group City cityStateZip 1 ;;
     assign_group State cityStateZip 2 ;;
     assign_group ZipCode cityStateZip 4 ;;
     assign_group Country cityStateZip 3
   else ret tt) ;;
  (if contains "BRAZIL" row2 then
     let cityStateZip := search brazilRegex row2 in
     assign_group City cityStateZip 1 ;;
     assign_str State "" ;;
     assign_group ZipCode cityStateZip 3 ;;
     assign_group Country cityStateZip 2
   else ret tt).

(** Lines 299-363. *)
Definition rung_mail_addr2 (row : Row) : P unit :=
  if mail_addr2 row =? " " then
    assign_str Owner (owner_name row) ;;
    assign_str Address (mail_addr1 row) ;;
    assign_str City "" ;;
    assign_str State "" ;;
    assign_str ZipCode "" ;;
    assign_str Country ""
  else
    let row2 := mail_addr2 row in
    let cityStateZip := search cityStateZipRegex row2 in
    match cityStateZip with
    | None => mail_addr2_foreign row2
    | Some _ => mail_addr2_domestic row cityStateZip
    end ;;
    assign_str Owner (owner_name row).

Definition run_rung (g : rung) (row : Row) : P unit :=
  match g with
  | MailAddr4 => rung_mail_addr4 row
  | MailAddr3 => rung_mail_addr3 row
  | UnitedStates => rung_united_states row
  | BlankOwner => rung_blank_owner
  | BlankAddr1 => rung_blank_addr1 row
  | MailAddr2 => rung_mail_addr2 row
  end.

(** Lines 366-371: the six locals are read into row[5..10]. *)
Definition write_columns : P Ownership :=
  o <- read Owner ;;
  a <- read Address ;;
  c <- read City ;;
  s <- read State ;;
  z <- read ZipCode ;;
  k <- read Country ;;
  ret {| owner := o; owner_address := a; owner_city := c;
         owner_state := s; owner_zip := z; owner_country := k |}.

(** One iteration of the loop of line 181, from the locals left by the
    iterations before it: [Next o l] when [updateRow] is reached with the
    columns [o], [Continue l] when the row is passed over, [Throw e] when
    the iteration raises [e]. *)
Definition parse_row (l : Locals) (row : Row) : flow Ownership :=
  (run_rung (ladder row) row ;; write_columns) l.

End Parser.

(* ------------------------------------------------------------------ *)
(** ** The legacy parcel id (lines 379-382) *)

Module Deriver.
Import PyStr.

(** [row[0][:6] + row[0][-2:]] *)
Definition derive (sourceId : string) : string :=
  slice sourceId None (Some 6%Z) ++ slice sourceId (Some (-2)%Z) None.

End Deriver.

(* ------------------------------------------------------------------ *)
(** ** [updateParcels] and [main] *)

Module Orchestrator.
Import PyStr Parser Deriver.

(** A row of the in-memory feature class: the columns of the extract, and
    the columns added at line 176, [None] until a cursor writes them. *)
Record Feature : Type := {
  raw : Row;
  own : Ownership;
  prcl_id_join : value
}.

Definition no_ownership : Ownership :=
  {| owner := VNone; owner_address := VNone; owner_city := VNone;
     owner_state := VNone; owner_zip := VNone; owner_country := VNone |}.

(** Lines 156 and 176: the copied row with the new, empty columns. *)
Definition fresh (r : Row) : Feature :=
  {| raw := r; own := no_ownership; prcl_id_join := VNone |}.

(** [datetime]: a naive value is a count of microseconds on its own time
    line; an aware value carries the offset of its [tzinfo]. *)
Record aware : Type := { wall : Z; utcoffset : Z }.

Definition instant (d : aware) : Z := (wall d - utcoffset d)%Z.

(** [a == b] on aware values: the fields are compared when the offsets
    agree, the instants otherwise. *)
Definition dt_eq (a b : aware) : bool :=
  if (utcoffset a =? utcoffset b)%Z then (wall a =? wall b)%Z
  else (instant a =? instant b)%Z.

(** [a != b] *)
Definition dt_ne (a b : aware) : bool := negb (dt_eq a b).

Inductive level : Type := DEBUG | INFO | ERROR.

(** The calls made on the collaborators, in order. *)
Inductive event : Type :=
| Log (lv : level) (msg : string)
| LogDate (msg : string) (d : aware)     (* a message that ends in str(d) *)
| Rmtree                                 (* shutil.rmtree of the zip folder *)
| SubmitJob                              (* the GP job: submit, poll, download, unzip, copy *)
| GetCount
| DeleteField (name : string)
| AddFields
| TruncateTable
| Append (rows : list Feature)
| SendMail (subject body : string).

Record World : Type := {
  destination : list Feature;    (* the rows of parcelsDestination *)
  events : list event            (* latest first *)
}.

Inductive result (A : Type) : Type :=
| Ok (a : A)
| Raise (e : exn).
Arguments Ok {A} a.
Arguments Raise {A} e.

Definition M (A : Type) : Type := World -> result A * World.

Definition mret {A} (a : A) : M A := fun w => (Ok a, w).

Definition mbind {A B} (c : M A) (k : A -> M B) : M B :=
  fun w =>
    match c w with
    | (Ok a, w') => k a w'
    | (Raise e, w') => (Raise e, w')
    end.

Definition lift {A} (r : result A) : M A := fun w => (r, w).

(** [try: c except: h] *)
Definition try_except (c : M unit) (h : exn -> M unit) : M unit :=
  fun w =>
    match c w with
    | (Ok a, w') => (Ok a, w')
    | (Raise e, w') => h e w'
    end.

Declare Scope run_scope.
Delimit Scope run_scope with run.
Notation "x <- c ;; k" := (mbind c (fun x => k))
  (at level 61, c at next level, right associativity) : run_scope.
Notation "c ;; k" := (mbind c (fun _ => k))
  (at level 61, right associativity) : run_scope.
Local Open Scope run_scope.

(** An event that cannot raise: a line of the log, the start of the job. *)
Definition emit (e : event) : M unit :=
  fun w => (Ok tt, {| destination := destination w; events := e :: events w |}).

Definition log (lv : level) (msg : string) : M unit := emit (Log lv msg).

(** Lines 181-374: the cursor loop; a row passed over keeps its columns. *)
Fixpoint parse_loop (l : Locals) (fs : list Feature) : result (list Feature) :=
  match fs with
  | [] => Ok []
  | f :: fs' =>
      match parse_row l (raw f) with
      | Next o l' =>
          match parse_loop l' fs' with
          | Ok done =>
              Ok ({| raw := raw f; own := o; prcl_id_join := prcl_id_join f |} :: done)
          | Raise e => Raise e
          end
      | Continue l' =>
          match parse_loop l' fs' with
          | Ok done => Ok (f :: done)
          | Raise e => Raise e
          end
      | Throw e => Raise e
      end
  end.

(** Lines 379-382. *)
Definition join_loop (fs : list Feature) : list Feature :=
  map (fun f => {| raw := raw f; own := own f;
                   prcl_id_join := VStr (derive (prcl_id (raw f))) |}) fs.

(** [arcpy.GetCount_management(memoryFeat)[0]]: the count in decimal. *)
Definition get_count (fs : list Feature) : string :=
  DecimalString.NilZero.string_of_uint (Nat.to_uint (List.length fs)).

Definition blank_subject : string :=
  "PRODUCTION ERROR - Automated email: EDC parcel data is blank".
Definition blank_body : string :=
  "The parcel data from EDC is blank. Please investigate.".
Definition success_subject : string :=
  "PRODUCTION - Automated email: El Dorado County Parcels Successfully Updated".
Definition error_subject : string :=
  "PRODUCTION - Automated email for error during parcel load".
Definition error_body : string := "There was an error, check the log file".

(** What the run receives from outside. *)
Record Env : Type := {
  existing_zip : bool;              (* line 73: the zip folder of a failed run exists *)
  extract : result (list Row);      (* lines 97-156: the rows copied in memory,
                                       or what the job or the download raised *)
  runtime_body : string;            (* line 406: the body with the run time *)
  remote_date : Z;                  (* line 450: the 'date' statistic, epoch milliseconds *)
  local_dates : list Z;             (* line 453: poly_creat, not null, newest first *)
  fromtimestamp : Z -> result Z;    (* line 450: datetime.fromtimestamp(date / 1000)
                                       for the date given, as the wall time of the
                                       machine's own zone in microseconds, or what
                                       the call raises *)
  pacific_offset : Z -> Z;          (* offset of America/Los_Angeles at an instant *)
  pacific_localize : Z -> result Z; (* offset of a Pacific wall time, is_dst=None *)
  traceback_text : string;          (* line 473 *)
  raises : list event -> event -> option exn;
                                    (* what a call on arcpy, shutil or smtplib
                                       raises, if it raises, when it is made after
                                       the events given *)
  spoiled : list Feature -> list Feature
                                    (* the rows that a TruncateTable or an Append
                                       which raises leaves in the table *)
}.

Section Run.
Variable env : Env.

(** A call on a collaborator: it is recorded, and it returns or raises. *)
Definition call (e : event) : M unit :=
  fun w =>
    let w' := {| destination := destination w; events := e :: events w |} in
    match raises env (events w) e with
    | None => (Ok tt, w')
    | Some x => (Raise x, w')
    end.

(** Lines 45-56. *)
Definition email_smtp (subject body : string) : M unit :=
  call (SendMail subject body).

(** Line 386. *)
Definition truncate_table : M unit :=
  fun w =>
    match raises env (events w) TruncateTable with
    | None =>
        (Ok tt, {| destination := []; events := TruncateTable :: events w |})
    | Some x =>
        (Raise x, {| destination := spoiled env (destination w);
                     events := TruncateTable :: events w |})
    end.

(** Line 388. *)
Definition append_rows (rows : list Feature) : M unit :=
  fun w =>
    match raises env (events w) (Append rows) with
    | None =>
        (Ok tt, {| destination := (destination w ++ rows)%list;
                   events := Append rows :: events w |})
    | Some x =>
        (Raise x, {| destination := spoiled env (destination w);
                     events := Append rows :: events w |})
    end.

(** Lines 158-411, from the rows copied in memory. *)
Definition load (memoryFeat : list Feature) : M unit :=
  call GetCount ;;
  if get_count memoryFeat =? "0" then
    log ERROR "The parcel data from EDC is blank." ;;
    email_smtp blank_subject blank_body ;;
    log INFO "Email Sent"
  else
    call (DeleteField "OBJECTID") ;;
    call AddFields ;;
    log INFO "Parsing ownership and address info..." ;;
    parsed <- lift (parse_loop unbound memoryFeat) ;;
    log INFO "Creating legacy parcel ID" ;;
    let joined := join_loop parsed in
    truncate_table ;;
    log INFO "Old parcels truncated" ;;
    append_rows joined ;;
    log INFO "New parcels copied" ;;
    call Rmtree ;;
    log INFO "Zip folder deleted" ;;
    log INFO (runtime_body env) ;;
    email_smtp success_subject (runtime_body env) ;;
    log INFO "Email Sent".

(** Lines 69-411. *)
Definition updateParcels : M unit :=
  (if existing_zip env
   then call Rmtree ;; log INFO "Previous zip folder deleted"
   else mret tt) ;;
  log INFO "Requesting parcels from EDC" ;;
  emit SubmitJob ;;
  rows <- lift (extract env) ;;
  load (map fresh rows).

(** Lines 448-452: the remote date read by [fromtimestamp] as wall time of
    the machine's own zone, and that wall time labelled Pacific. *)
Definition edcLastUpdate : result aware :=
  match fromtimestamp env (remote_date env) with
  | Ok naive =>
      match pacific_localize env naive with
      | Ok off => Ok {| wall := naive; utcoffset := off |}
      | Raise e => Raise e
      end
  | Raise e => Raise e
  end.

(** Lines 453-457: the newest local date read as UTC and moved to
    Pacific. *)
Definition sltLastUpdate : result aware :=
  match local_dates env with
  | [] => Raise StopIteration
  | d :: _ =>
      let utc := {| wall := d; utcoffset := 0 |} in
      let off := pacific_offset env (instant utc) in
      Ok {| wall := (instant utc + off)%Z; utcoffset := off |}
  end.

(** Lines 466-476: the handler of the bare [except]. *)
Definition on_error (e : exn) : M unit :=
  log ERROR "There was an error" ;;
  log ERROR (traceback_text env) ;;
  email_smtp error_subject error_body.

(** Lines 427-464: the [try] block of [main]. *)
Definition try_body : M unit :=
  log INFO "Starting Script" ;;
  edc <- lift edcLastUpdate ;;
  slt <- lift sltLastUpdate ;;
  emit (LogDate "EDC newest date: " edc) ;;
  emit (LogDate "Local newest date: " slt) ;;
  if dt_ne slt edc then
    log INFO "Parcels need updating" ;;
    updateParcels
  else
    log INFO "Parcels up to date, stopping script".

(** Lines 426-476 for one section of the configuration. *)
Definition main : M unit := try_except try_body on_error.

End Run.

Definition start (d : list Feature) : World :=
  {| destination := d; events := [] |}.

Definition is_truncate (e : event) : bool :=
  match e with TruncateTable => true | _ => false end.
Definition is_append (e : event) : bool :=
  match e with Append _ => true | _ => false end.
Definition is_submit (e : event) : bool :=
  match e with SubmitJob => true | _ => false end.
Definition is_mail (subject : string) (e : event) : bool :=
  match e with SendMail s _ => s =? subject | _ => false end.

End Orchestrator.


(* ------------------------------------------------------------------ *)
(** ** Vocabulary of the statements *)

Module Statements.
Import PyStr Re Parser Deriver Orchestrator.

Definition usa : string := "UNITED STATES OF AMERICA".

(** The columns written when every local holds a string. *)
Definition columns (o a c s z k : string) : Ownership :=
  {| owner := VStr o; owner_address := VStr a; owner_city := VStr c;
     owner_state := VStr s; owner_zip := VStr z; owner_country := VStr k |}.

(** The locals after an iteration that assigned a string to each. *)
Definition locals (o a c s z k : string) : Locals :=
  {| v_owner := Some (VStr o); v_address := Some (VStr a);
     v_city := Some (VStr c); v_state := Some (VStr s);
     v_zipCode := Some (VStr z); v_country := Some (VStr k) |}.

(** An iteration that ends with six strings in the six locals and writes
    them to the six columns. *)
Definition six_strings (f : flow Ownership) : Prop :=
  exists o a c s z k, f = Next (columns o a c s z k) (locals o a c s z k).

Definition mk_row (o l1 l2 l3 l4 pid : string) : Row :=
  {| owner_name := o; mail_addr1 := l1; mail_addr2 := l2;
     mail_addr3 := l3; mail_addr4 := l4; prcl_id := pid |}.

(** A domestic row: city, state and zip on line 4, the street on line 3. *)
Definition tahoe_row : Row :=
  mk_row "SMITH JOHN" " " " " "123 MAIN ST" "SOUTH LAKE TAHOE CA 96150"
         "060123045601".

(** Line 4 is neither a country nor city, state and zip. *)
Definition nowhere_row : Row :=
  mk_row "SMITH JOHN" "1 ELM ST" "RENO" "NV" "NOWHERE" "060123045601".

(** Line 4 is the sentinel. *)
Definition unknown_row : Row :=
  mk_row "SMITH JOHN" "1 ELM ST" "RENO" "NV" "UNKNOWN" "060123045601".

(** Line 4 is a country of the list. *)
Definition japan_row : Row :=
  mk_row "SATO KEN" "1-2 GINZA" "CHUO-KU" "TOKYO" "JAPAN" "060123045601".

(** Line 4 parses, line 3 has no street number and no PO box. *)
Definition numberless_row : Row :=
  mk_row "SMITH JOHN" " " " " "MAIN ST" "SOUTH LAKE TAHOE CA 96150"
         "060123045601".

(** Every line blank, the owner is the United States. *)
Definition usa_blank_row : Row := mk_row usa " " " " " " " " "060123045601".

(** Line 4 is the empty string, not the one space. *)
Definition empty_line4_row : Row :=
  mk_row "SMITH JOHN" "1 ELM ST" " " " " "" "060123045601".

(** Only the owner, line 1 and a Canadian line 2. *)
Definition canada_row : Row :=
  mk_row "ROY ANNE" "77 KING ST" "VANCOUVER BC CANADA V6B 1A1" " " " "
         "060123045602".

(** Only the owner, line 1 and a line 2 of no known shape. *)
Definition england_row : Row :=
  mk_row "HILL TOM" "9 HIGH ST" "LONDON ENGLAND" " " " " "060123045603".

(** The conditions on line 4 under which line 195 is reached. *)
Definition unparseable (row4 : string) : Prop :=
  row4 <> " " /\ row4 <> "UNKNOWN" /\
  mem (lower row4) countriesList = false /\
  search cityStateZipRegex row4 = None.

(** Line 205 is reached with a line 3 that the address pattern does not
    match: line 4 parsed as city, state and zip, and line 3 has neither a PO
    box form nor a street number. *)
Definition numberless_line3 (row : Row) : bool :=
  let row3 := mail_addr3 row in
  let row4 := mail_addr4 row in
  negb (row4 =? " ") && negb (row4 =? "UNKNOWN")
  && negb (mem (lower row4) countriesList)
  && negb (is_none (search cityStateZipRegex row4))
  && negb (startswith row3 "PO" || startswith row3 "P O")
  && negb (contains "PO BOX" row3 || contains "P O BOX" row3
           || contains "P.O. BOX" row3)
  && is_none (search addressRegex row3).

(** Lines 315-327 are reached: the last rung, with a line 2 that is not
    blank and does not parse as city, state and zip. *)
Definition foreign_line2 (row : Row) : bool :=
  match ladder row with
  | MailAddr2 =>
      negb (mail_addr2 row =? " ")
      && is_none (search cityStateZipRegex (mail_addr2 row))
  | _ => false
  end.

(** The world of [main] once both dates are logged. *)
Definition checked (edc slt : aware) (d : list Feature) : World :=
  {| destination := d;
     events := [LogDate "Local newest date: " slt;
                LogDate "EDC newest date: " edc;
                Log INFO "Starting Script"] |}.

(** Pacific standard time, in microseconds. *)
Definition pst : Z := (-28800000000)%Z.

(** No call on a collaborator raises. *)
Definition quiet (env : Env) : Prop := forall h e, raises env h e = None.

(** [datetime.fromtimestamp(date / 1000)] as the sample runs need it, on a
    machine whose zone is [off] microseconds from UTC: for a date of the
    years 1970 to 2099 the quotient, a float, rounds to the very
    microsecond. The sample runs ask for such dates only, and what Python
    gives for another date is not modelled here. *)
Definition machine (off date : Z) : result Z :=
  if ((0 <=? date) && (date <? 4102444800000))%Z
  then Ok (date * 1000 + off)%Z
  else Raise (OtherError "not modelled").

(** A run on a machine on Pacific standard time, with collaborators that do
    not raise; the remote date is 1700000000000 ms. *)
Definition sample_env (local : Z) (rows : result (list Row)) : Env :=
  {| existing_zip := false;
     extract := rows;
     runtime_body := "Parcels were successfully updated.";
     remote_date := 1700000000000%Z;
     local_dates := [local];
     fromtimestamp := machine pst;
     pacific_offset := fun _ => pst;
     pacific_localize := fun _ => Ok pst;
     traceback_text := "Python Errors:";
     raises := fun _ _ => None;
     spoiled := fun d => d |}.

(** The same run on a machine on UTC: [fromtimestamp] gives UTC wall time. *)
Definition utc_machine_env (local : Z) (rows : result (list Row)) : Env :=
  {| existing_zip := false;
     extract := rows;
     runtime_body := "Parcels were successfully updated.";
     remote_date := 1700000000000%Z;
     local_dates := [local];
     fromtimestamp := machine 0;
     pacific_offset := fun _ => pst;
     pacific_localize := fun _ => Ok pst;
     traceback_text := "Python Errors:";
     raises := fun _ _ => None;
     spoiled := fun d => d |}.

Definition remote_sample : aware :=
  {| wall := (1700000000000000 + pst)%Z; utcoffset := pst |}.

(** The local date one microsecond after the remote one. *)
Definition local_ahead : aware :=
  {| wall := (1700000000000001 + pst)%Z; utcoffset := pst |}.

End Statements.

From Stdlib Require Import DecimalNat.

(* ------------------------------------------------------------------ *)
(** ** The extraction job (lines 100-134)

    The JSON bodies that the server returns are inputs: the reply to the
    submit request, the replies to the status requests in the order in
    which the loop receives them, and the body of the result request. A
    reply is read through the keys that the script looks up. The status
    loop has no bound of its own, so the model runs it on the replies it is
    given and says so when they are used up. *)

Module Extraction.

(** A body [jobJson]: [None] is a key that is not there. *)
Record Reply : Type := {
  jobId : option string;              (* 'jobId' *)
  jobStatus : option string;          (* 'jobStatus' *)
  results : option (option string);   (* 'results', and inside it
                                         ['Output_Zip_File']['paramUrl'] *)
  messages : option string            (* 'messages', as logged *)
}.

Inductive error : Type :=
| KeyError (key : string)
| UnboundLocal (name : string)
| JobFailed (msg : string).            (* ValueError(msg) *)

(** The calls made, in order. *)
Inductive call : Type :=
| LogInfo (msg : string)
| LogError (msg : string)
| Sleep (seconds : nat)
| HttpGet (url : string).

Inductive outcome : Type :=
| Zip (url : string)    (* line 133 has requested the archive at [url] *)
| Raised (e : error)
| Polling.              (* the loop of line 113 is still running *)

Definition submitURL : string :=
  "https://see-eldorado.edcgov.us/arcgis/rest/services/uGOTNETandEXTRACTS/geoservices/GPServer/Extract%20Data%20Task/submitJob".

Definition jobURL : string :=
  "https://see-eldorado.edcgov.us/arcgis/rest/services/uGOTNETandEXTRACTS/geoservices/GPServer/Extract%20Data%20Task/jobs".

(** The test of lines 109 and 113. *)
Definition waiting (status : string) : bool :=
  (status =? "esriJobSubmitted") || (status =? "esriJobExecuting").

(** Lines 133-134: [jobResult] is the request of line 125 when that line
    was reached; [value_url] is ['value']['url'] of its body. *)
Definition download (jobResult : option string) (value_url : option string)
    (tr : list call) : list call * outcome :=
  match jobResult with
  | None => (tr, Raised (UnboundLocal "jobResult"))
  | Some _ =>
      match value_url with
      | None => (tr, Raised (KeyError "value"))
      | Some url =>
          (LogInfo "Downloaded ZIP from EDC" :: HttpGet url :: tr, Zip url)
      end
  end.

(** Lines 113-130, on the replies still to come; the calls are kept latest
    first. *)
Fixpoint poll (jobID status : string) (jobResult : option string)
    (replies : list Reply) (value_url : option string) (tr : list call)
  : list call * outcome :=
  if waiting status then
    match replies with
    | [] => (tr, Polling)
    | jobJson :: rest =>
        let tr := HttpGet (jobURL ++ "/" ++ jobID ++ "?f=json") :: Sleep 5 :: tr in
        match jobStatus jobJson with
        | None => poll jobID status jobResult rest value_url tr
        | Some status' =>
            if status' =? "esriJobSucceeded" then
              match results jobJson with
              | None => poll jobID status' jobResult rest value_url tr
              | Some None =>
                  (LogInfo "EDC server job completed" :: tr,
                   Raised (KeyError "paramUrl"))
              | Some (Some resultURL) =>
                  let request :=
                    jobURL ++ "/" ++ jobID ++ "/" ++ resultURL
                    ++ "?f=json&returnType=data" in
                  poll jobID status' (Some request) rest value_url
                    (HttpGet request :: LogInfo "Downloading ZIP from EDC"
                     :: LogInfo "EDC server job completed" :: tr)
              end
            else if status' =? "esriJobFailed" then
              (match messages jobJson with
               | Some m => [LogError m]
               | None => []
               end ++ LogError "EDC server job failure" :: tr,
               Raised (JobFailed "EDC job failed!"))%list
            else poll jobID status' jobResult rest value_url tr
        end
    end
  else download jobResult value_url tr.

(** Lines 100-134. *)
Definition request_parcels (submit : Reply) (replies : list Reply)
    (value_url : option string) : list call * outcome :=
  let tr := [HttpGet submitURL; LogInfo "Requesting parcels from EDC"] in
  match jobId submit with
  | None => download None value_url tr
  | Some jobID =>
      match jobStatus submit with
      | None => (tr, Raised (KeyError "jobStatus"))
      | Some status =>
          poll jobID status None replies value_url
            (if waiting status then LogInfo "EDC job submitted" :: tr else tr)
      end
  end.

Definition is_sleep (c : call) : bool :=
  match c with Sleep _ => true | _ => false end.

(** How many times the loop has slept. *)
Definition sleeps (tr : list call) : nat := List.length (filter is_sleep tr).

End Extraction.

(* ------------------------------------------------------------------ *)
(** ** More vocabulary: shapes of strings, and more sample inputs *)

Module Shapes.
Import PyStr Re Parser Deriver Orchestrator Statements Extraction.

(** Every character of [s] is in the class [p]. *)
Fixpoint all_chars (p : ascii -> bool) (s : string) : bool :=
  match s with
  | EmptyString => true
  | String c s' => p c && all_chars p s'
  end.

(** The first character of [s] is in the class [p]. *)
Definition first_char (p : ascii -> bool) (s : string) : bool :=
  match s with
  | EmptyString => false
  | String c _ => p c
  end.

(** One or two letters of A-Z. *)
Definition state_code (s : string) : bool :=
  all_chars upper_AZ s && (1 <=? String.length s)%nat
  && (String.length s <=? 2)%nat.

(** [t] occurs in [s]. *)
Definition occurs_in (t s : string) : Prop :=
  exists before after, s = before ++ t ++ after.

(** Lines 243-244 and 336-337: one leading space is cut. *)
Definition sanitized (s : string) : string :=
  if startswith s " " then slice s (Some 1%Z) None else s.

(** Lines 197-199: line 3 is taken as the address as it is. *)
Definition po_box_line3 (row3 : string) : bool :=
  startswith row3 "PO" || startswith row3 "P O"
  || (contains "PO BOX" row3 || contains "P O BOX" row3
      || contains "P.O. BOX" row3).

(** Lines 252-256: line 2 is taken as the address as it is. *)
Definition kept_line2 (row2 : string) : bool :=
  startswith row2 "PO" || startswith row2 "P O" || startswith row2 "P.O."
  || (contains "PO BOX" row2 || contains "P O BOX" row2
      || startswith row2 "ONE " || startswith row2 "TWO ").

(** The outcome of an iteration does not depend on the locals that the
    rows before it left. *)
Definition uniform (f : Locals -> flow Ownership) : Prop :=
  (exists o m, forall l, f l = Next o m) \/
  (forall l, f l = Continue l) \/
  (exists e, forall l, f l = Throw e).

(** What the handler of [main] returns when it is entered after the events
    [h]: what its call for the error mail returns. *)
Definition handled (env : Env) (h : list event) : result unit :=
  match raises env (Log ERROR (traceback_text env)
                    :: Log ERROR "There was an error" :: h)
               (SendMail error_subject error_body) with
  | None => Ok tt
  | Some x => Raise x
  end.

(** The world that the handler of [main] leaves when it is entered in the
    world [w]. *)
Definition mailed (env : Env) (w : World) : World :=
  {| destination := destination w;
     events := SendMail error_subject error_body
               :: Log ERROR (traceback_text env)
               :: Log ERROR "There was an error" :: events w |}.

(** The world that one run of [main] leaves, from a destination [d]. *)
Definition after_run (env : Env) (d : list Feature) : World :=
  snd (main env (start d)).

(** The world of a run that stops in the handler before any job. *)
Definition stopped_early (env : Env) (d : list Feature) : World :=
  {| destination := d;
     events := [SendMail error_subject error_body;
                Log ERROR (traceback_text env);
                Log ERROR "There was an error";
                Log INFO "Starting Script"] |}.

(** Line 340: line 1, one leading space cut, starts like a PO box. *)
Definition po_start (row1 : string) : bool :=
  startswith row1 "PO" || startswith row1 "P.O." || startswith row1 "P O"
  || startswith row1 "P  O".

(** Line 344: a PO box is named somewhere in the line. *)
Definition names_po_box (row1 : string) : bool :=
  contains "PO BOX" row1 || contains "P O BOX" row1.

(** A PO box as the PO box pattern captures it: P, white space, O BOX,
    characters that are no word characters, one to six digits. *)
Definition po_box_text (a : string) : Prop :=
  exists sp nw ds,
    a = "P" ++ sp ++ "O BOX" ++ nw ++ ds /\
    all_chars space sp = true /\ all_chars nonword nw = true /\
    all_chars digit ds = true /\
    (1 <= String.length ds)%nat /\ (String.length ds <= 6)%nat.

(** The name in front of a PO box, with a box number of seven digits. *)
Definition po_box_row : Row :=
  mk_row "SMITH JOHN" "C/O JONES PO BOX 1234567" "RENO NV 89501" " " " "
         "060123045611".

(** A letter of either case. *)
Definition either_case (lo up c : ascii) : Prop := c = lo \/ c = up.

(** Line 3 is a country that the script does not know, line 4 is blank. *)
Definition france_row : Row :=
  mk_row "MARTIN LUC" "12 RUE DE LA PAIX" "75002 PARIS" "FRANCE" " "
         "060123045604".

(** Line 3 is city, state and zip; line 2 holds a name, not a street. *)
Definition care_of_row : Row :=
  mk_row "SMITH JOHN" "JONES MARY" " C/O TRUSTEE" "RENO NV 89501" " "
         "060123045605".

(** The owner is blank, the lines are not. *)
Definition ownerless_row : Row :=
  mk_row " " "1 ELM ST" "RENO NV 89501" " " " " "060123045606".

(** The owner and line 2 are there, line 1 is blank. *)
Definition no_line1_row : Row :=
  mk_row "SMITH JOHN" " " "RENO NV 89501" " " " " "060123045607".

(** Line 2 names Canada in a shape that the Canada pattern does not match. *)
Definition bare_canada_row : Row :=
  mk_row "ROY ANNE" "77 KING ST" "CANADA" " " " " "060123045608".

(** A federal parcel with an office address. *)
Definition federal_row : Row :=
  mk_row usa "2800 COTTAGE WAY" "SACRAMENTO CA 95825" " " " " "060123045609".

(** Line 4 has no digit. *)
Definition digitless_row : Row :=
  mk_row "SMITH JOHN" "1 ELM ST" "RENO" "NV" "SOUTH LAKE TAHOE CA"
         "060123045610".

(** The destination has no dated row. *)
Definition undated_env : Env :=
  {| existing_zip := false;
     extract := Ok [tahoe_row];
     runtime_body := "Parcels were successfully updated.";
     remote_date := 1700000000000%Z;
     local_dates := [];
     fromtimestamp := machine pst;
     pacific_offset := fun _ => pst;
     pacific_localize := fun _ => Ok pst;
     traceback_text := "Python Errors:";
     raises := fun _ _ => None;
     spoiled := fun d => d |}.

(** The remote date falls in the hour that the clocks repeat. *)
Definition ambiguous_env : Env :=
  {| existing_zip := false;
     extract := Ok [tahoe_row];
     runtime_body := "Parcels were successfully updated.";
     remote_date := 1699174800000%Z;
     local_dates := [1700000000000001%Z];
     fromtimestamp := machine pst;
     pacific_offset := fun _ => pst;
     pacific_localize := fun _ => Raise AmbiguousTimeError;
     traceback_text := "Python Errors:";
     raises := fun _ _ => None;
     spoiled := fun d => d |}.

(** What a call raises when the zip folder cannot be deleted and every
    other call returns. *)
Definition zip_locked (h : list event) (e : event) : option exn :=
  match e with
  | Rmtree => Some (OtherError "PermissionError")
  | _ => None
  end.

(** What a call raises when the table cannot be written and every other
    call returns. *)
Definition table_locked (h : list event) (e : event) : option exn :=
  match e with
  | Append _ => Some (OtherError "ExecuteError")
  | _ => None
  end.

(** The run of [sample_env] with calls that raise as [r] says; a call that
    raises leaves the table as it is. *)
Definition failing_env (r : list event -> event -> option exn) (local : Z)
    (rows : result (list Row)) : Env :=
  {| existing_zip := false;
     extract := rows;
     runtime_body := "Parcels were successfully updated.";
     remote_date := 1700000000000%Z;
     local_dates := [local];
     fromtimestamp := machine pst;
     pacific_offset := fun _ => pst;
     pacific_localize := fun _ => Ok pst;
     traceback_text := "Python Errors:";
     raises := r;
     spoiled := fun d => d |}.

(** The row of [tahoe_row] as a reload writes it. *)
Definition tahoe_loaded : Feature :=
  {| raw := tahoe_row;
     own := columns "SMITH JOHN    " "123 MAIN ST" "SOUTH LAKE TAHOE"
                    "CA" "96150" "";
     prcl_id_join := VStr "06012301" |}.

Definition reply (id status : option string) (res : option (option string))
    (msg : option string) : Reply :=
  {| jobId := id; jobStatus := status; results := res; messages := msg |}.

Definition submitted : Reply :=
  reply (Some "j42") (Some "esriJobSubmitted") None None.
Definition executing : Reply :=
  reply (Some "j42") (Some "esriJobExecuting") None None.
Definition succeeded : Reply :=
  reply (Some "j42") (Some "esriJobSucceeded")
        (Some (Some "results/Output_Zip_File")) None.
Definition failed : Reply :=
  reply (Some "j42") (Some "esriJobFailed") None (Some "out of memory").
Definition cancelled : Reply :=
  reply (Some "j42") (Some "esriJobCancelled") None None.

(** A reply that keeps the loop of line 113 going: no status, or one of the
    two that the loop waits on. *)
Definition keeps_waiting (r : Reply) : bool :=
  match jobStatus r with
  | None => true
  | Some s => waiting s
  end.

End Shapes.

(* ------------------------------------------------------------------ *)
(** * Properties *)

Import PyStr Re Parser Deriver Orchestrator Statements.

(** ** The matcher: a match defines every group of its pattern *)

Section Groups.

Lemma matches_defines (r : regex) :
  forall s w, In w (matches r s) -> map fst (snd w) = defines r.
Proof.
  induction r as [p | t | a IHa b IHb | p lo hi g | i a IHa | a IHa];
    intros s w Hin; simpl in Hin.
  - destruct s as [| c s']; [contradiction |].
    destruct (p c); [| contradiction].
    destruct Hin as [<- | []]; reflexivity.
  - destruct (startswith s t); [| contradiction].
    destruct Hin as [<- | []]; reflexivity.
  - apply in_flat_map in Hin as (w1 & H1 & Hin).
    apply in_map_iff in Hin as (w2 & <- & H2).
    simpl. rewrite map_app, (IHa _ _ H1), (IHb _ _ H2). reflexivity.
  - apply in_map_iff in Hin as (t & <- & _). reflexivity.
  - apply in_map_iff in Hin as (w1 & <- & H1).
    simpl. rewrite map_app, (IHa _ _ H1). reflexivity.
  - destruct (matches a s) as [| w1 rest] eqn:E; [contradiction |].
    destruct Hin as [<- | []]. simpl.
    apply (IHa s w1). rewrite E. now left.
Qed.

Lemma search_defines (r : regex) :
  forall s m, search r s = Some m -> map fst (groups m) = defines r.
Proof.
  induction s as [| c s IH]; intros m Hs; simpl in Hs.
  - destruct (matches r "") as [| w rest] eqn:E; [discriminate |].
    injection Hs as <-. simpl.
    apply (matches_defines r "" w). rewrite E. now left.
  - destruct (matches r (String c s)) as [| w rest] eqn:E.
    + now apply IH.
    + injection Hs as <-. simpl.
      apply (matches_defines r (String c s) w). rewrite E. now left.
Qed.

Lemma lookup_defined (i : nat) :
  forall c, In i (map fst c) -> exists t, lookup i c = Some t.
Proof.
  induction c as [| [j t] c IH]; intros Hin; simpl in *.
  - contradiction.
  - destruct (Nat.eqb_spec i j) as [-> | Hne].
    + now exists t.
    + destruct Hin as [-> | Hin]; [congruence | now apply IH].
Qed.

(** [m.group(i)] of a match of [r] is a string when [r] has a group [i]. *)
Lemma group_is_str (r : regex) (s : string) (m : rmatch) (i : nat) :
  search r s = Some m -> In i (defines r) ->
  exists t, group (Some m) i = ret (VStr t).
Proof.
  intros Hs Hi. apply search_defines in Hs. rewrite <- Hs in Hi.
  destruct (lookup_defined i _ Hi) as [t Ht].
  exists t. unfold group. now rewrite Ht.
Qed.

(** The three groups of a match of the city, state and zip pattern. *)
Lemma cityStateZip_groups (s : string) (m : rmatch) :
  search cityStateZipRegex s = Some m ->
  exists c st z,
    group (Some m) 1 = ret (VStr c) /\
    group (Some m) 2 = ret (VStr st) /\
    group (Some m) 3 = ret (VStr z).
Proof.
  intros Hs.
  destruct (group_is_str _ _ _ 1 Hs) as [c Hc]; [simpl; tauto |].
  destruct (group_is_str _ _ _ 2 Hs) as [st Hst]; [simpl; tauto |].
  destruct (group_is_str _ _ _ 3 Hs) as [z Hz]; [simpl; tauto |].
  now exists c, st, z.
Qed.

Lemma address_group (s : string) (m : rmatch) :
  search addressRegex s = Some m ->
  exists a, group (Some m) 1 = ret (VStr a).
Proof.
  intros Hs. apply (group_is_str _ _ _ 1 Hs). simpl. tauto.
Qed.

Lemma poBox_group (s : string) (m : rmatch) :
  search poBoxRegex s = Some m ->
  exists a, group (Some m) 2 = ret (VStr a).
Proof.
  intros Hs. apply (group_is_str _ _ _ 2 Hs). simpl. tauto.
Qed.

End Groups.

(** ** The priority ladder *)

Ltac string_cases :=
  repeat match goal with
    | |- context [String.eqb ?a ?b] => destruct (String.eqb_spec a b)
    end.

Lemma ladder_mail_addr4 (row : Row) :
  ladder row = MailAddr4 <-> mail_addr4 row <> " ".
Proof.
  unfold ladder. string_cases; simpl; split; intros; congruence.
Qed.

Lemma ladder_mail_addr3 (row : Row) :
  ladder row = MailAddr3 <-> mail_addr4 row = " " /\ mail_addr3 row <> " ".
Proof.
  unfold ladder. string_cases; simpl;
    (split; [intros H; repeat split; congruence | intros (? & ?); congruence]).
Qed.

Lemma ladder_united_states (row : Row) :
  ladder row = UnitedStates <->
  mail_addr4 row = " " /\ mail_addr3 row = " " /\ owner_name row = usa.
Proof.
  unfold ladder, usa. string_cases; simpl;
    (split; [intros H; repeat split; congruence | intros (? & ? & ?); congruence]).
Qed.

Lemma ladder_blank_owner (row : Row) :
  ladder row = BlankOwner <->
  mail_addr4 row = " " /\ mail_addr3 row = " " /\ owner_name row = " ".
Proof.
  unfold ladder. string_cases; simpl;
    (split; [intros H; repeat split; congruence | intros (? & ? & ?); congruence]).
Qed.

Lemma ladder_blank_addr1 (row : Row) :
  ladder row = BlankAddr1 <->
  mail_addr4 row = " " /\ mail_addr3 row = " " /\ owner_name row <> usa /\
  owner_name row <> " " /\ mail_addr1 row = " ".
Proof.
  unfold ladder, usa. string_cases; simpl;
    (split; [intros H; repeat split; congruence
            | intros (? & ? & ? & ? & ?); congruence]).
Qed.

Lemma ladder_mail_addr2 (row : Row) :
  ladder row = MailAddr2 <->
  mail_addr4 row = " " /\ mail_addr3 row = " " /\ owner_name row <> usa /\
  owner_name row <> " " /\ mail_addr1 row <> " ".
Proof.
  unfold ladder, usa. string_cases; simpl;
    (split; [intros H; repeat split; congruence
            | intros (? & ? & ? & ? & ?); congruence]).
Qed.

(** Line 301: inside the last rung a blank line 2 leaves owner and line 1. *)
Lemma mail_addr2_blank_line2 (l : Locals) (row : Row) :
  ladder row = MailAddr2 -> mail_addr2 row = " " ->
  parse_row l row =
    Next (columns (owner_name row) (mail_addr1 row) "" "" "" "")
         (locals (owner_name row) (mail_addr1 row) "" "" "" "").
Proof.
  intros Hl H2. unfold parse_row. rewrite Hl. unfold run_rung, rung_mail_addr2.
  rewrite H2. reflexivity.
Qed.

(** Line 301: an empty line 2 is not blank; it goes to the patterns, which
    assign no address. *)
Lemma mail_addr2_empty_line2 (row : Row) :
  ladder row = MailAddr2 -> mail_addr2 row = "" ->
  parse_row unbound row = Throw (UnboundLocalError "address").
Proof.
  intros Hl H2. unfold parse_row. rewrite Hl. unfold run_rung, rung_mail_addr2.
  rewrite H2. reflexivity.
Qed.

(** C9: a mailing line or the owner name is blank exactly when it is the
    one-character string of a single space. Each rung of the ladder is
    taken exactly when the lines above it equal that string and its own
    guard holds; any other value counts as present, the empty string
    included: an empty line 4 selects the line-4 rung, and inside the last
    rung (line 301) a line 2 of one space gives owner and line 1 only, while
    an empty line 2 goes on to the patterns. *)
Theorem blank_is_one_space (l : Locals) (row : Row) :
  (ladder row = MailAddr4 <-> mail_addr4 row <> " ") /\
  (ladder row = MailAddr3 <-> mail_addr4 row = " " /\ mail_addr3 row <> " ") /\
  (ladder row = UnitedStates <->
   mail_addr4 row = " " /\ mail_addr3 row = " " /\ owner_name row = usa) /\
  (ladder row = BlankOwner <->
   mail_addr4 row = " " /\ mail_addr3 row = " " /\ owner_name row = " ") /\
  (ladder row = BlankAddr1 <->
   mail_addr4 row = " " /\ mail_addr3 row = " " /\ owner_name row <> usa /\
   owner_name row <> " " /\ mail_addr1 row = " ") /\
  (ladder row = MailAddr2 <->
   mail_addr4 row = " " /\ mail_addr3 row = " " /\ owner_name row <> usa /\
   owner_name row <> " " /\ mail_addr1 row <> " ") /\
  (mail_addr4 row = "" -> ladder row = MailAddr4) /\
  (ladder row = MailAddr2 -> mail_addr2 row = " " ->
   parse_row l row =
     Next (columns (owner_name row) (mail_addr1 row) "" "" "" "")
          (locals (owner_name row) (mail_addr1 row) "" "" "" "")) /\
  (ladder row = MailAddr2 -> mail_addr2 row = "" ->
   parse_row unbound row = Throw (UnboundLocalError "address")).
Proof.
  split; [apply ladder_mail_addr4 |].
  split; [apply ladder_mail_addr3 |].
  split; [apply ladder_united_states |].
  split; [apply ladder_blank_owner |].
  split; [apply ladder_blank_addr1 |].
  split; [apply ladder_mail_addr2 |].
  split; [| split].
  - intros H. apply ladder_mail_addr4. rewrite H. discriminate.
  - apply mail_addr2_blank_line2.
  - apply mail_addr2_empty_line2.
Qed.

Lemma blank_is_one_space_witness :
  mail_addr4 empty_line4_row = "" /\ ladder empty_line4_row = MailAddr4.
Proof.
  split; [reflexivity |].
  destruct (blank_is_one_space unbound empty_line4_row)
    as (_ & _ & _ & _ & _ & _ & H & _).
  exact (H eq_refl).
Defined.

(** ** Line 4 present *)

(** Line 195: the iteration ends by [continue], before any assignment. *)
Lemma skip_unparseable (l : Locals) (row : Row) :
  unparseable (mail_addr4 row) -> parse_row l row = Continue l.
Proof.
  intros (Hb & Hu & Hc & Hs).
  unfold parse_row. rewrite (proj2 (ladder_mail_addr4 row) Hb).
  unfold run_rung, rung_mail_addr4.
  apply String.eqb_neq in Hu. rewrite Hu, Hc, Hs. reflexivity.
Qed.

Lemma unparseable_dec (row4 : string) :
  unparseable row4 \/ ~ unparseable row4.
Proof.
  unfold unparseable.
  destruct (String.eqb_spec row4 " "); [right; tauto |].
  destruct (String.eqb_spec row4 "UNKNOWN"); [right; tauto |].
  destruct (mem (lower row4) countriesList); [right; intuition discriminate |].
  destruct (search cityStateZipRegex row4); [right; intuition discriminate |].
  left. tauto.
Qed.

Lemma nowhere_unparseable : unparseable (mail_addr4 nowhere_row).
Proof.
  repeat split; try discriminate; reflexivity.
Qed.

(** C2, as the code has it: with line 4 = SOUTH LAKE TAHOE CA 96150 and
    line 3 = 123 MAIN ST, whatever the owner, line 1, line 2, the parcel id
    and the locals left by earlier rows, the row gets city SOUTH LAKE TAHOE,
    state CA, zip 96150, an empty country, and the address 123 MAIN ST: the
    one group of the address pattern spans the street number too, so the
    number stays in the address. The owner is the owner name, line 1 and
    line 2 joined by single spaces. *)
Theorem tahoe_address_keeps_number (l : Locals) (o l1 l2 pid : string) :
  parse_row l (mk_row o l1 l2 "123 MAIN ST" "SOUTH LAKE TAHOE CA 96150" pid) =
    Next (columns (o ++ " " ++ l1 ++ " " ++ l2) "123 MAIN ST"
                  "SOUTH LAKE TAHOE" "CA" "96150" "")
         (locals (o ++ " " ++ l1 ++ " " ++ l2) "123 MAIN ST"
                 "SOUTH LAKE TAHOE" "CA" "96150" "").
Proof.
  reflexivity.
Qed.

(** C2 as stated fails: the address written for the row of the example is
    not MAIN ST. *)
Lemma tahoe_address_not_stripped :
  mail_addr4 tahoe_row = "SOUTH LAKE TAHOE CA 96150" /\
  mail_addr3 tahoe_row = "123 MAIN ST" /\
  ~ (exists o l, parse_row unbound tahoe_row = Next o l /\
                 owner_address o = VStr "MAIN ST").
Proof.
  split; [reflexivity |]. split; [reflexivity |].
  intros (o & l & H & Ha).
  vm_compute in H. injection H as <- _.
  discriminate Ha.
Qed.

(** C3, as the code has it: a row whose line 4 is not blank, is not UNKNOWN,
    is not a known country and does not match city, state and zip is passed
    over by [continue]: no column of the row is written and no local
    changes, so in the loop the feature keeps the columns it had. *)
Theorem unparseable_line4_is_skipped (l : Locals) (f : Feature)
    (fs : list Feature) :
  unparseable (mail_addr4 (raw f)) ->
  parse_row l (raw f) = Continue l /\
  parse_loop l (f :: fs) =
    match parse_loop l fs with
    | Ok done => Ok (f :: done)
    | Raise e => Raise e
    end.
Proof.
  intros H. pose proof (skip_unparseable l (raw f) H) as Hp.
  split; [exact Hp |]. simpl. rewrite Hp. reflexivity.
Qed.

Lemma unparseable_line4_is_skipped_witness :
  parse_row unbound nowhere_row = Continue unbound /\
  parse_loop unbound [fresh nowhere_row] = Ok [fresh nowhere_row].
Proof.
  exact (unparseable_line4_is_skipped unbound (fresh nowhere_row) []
           nowhere_unparseable).
Defined.

(** C3 as stated fails: the row NOWHERE meets the conditions and does not
    get the owner with five empty strings; it gets no columns. *)
Lemma unparseable_line4_no_columns :
  unparseable (mail_addr4 nowhere_row) /\
  ~ (exists l, parse_row unbound nowhere_row =
               Next (columns (owner_name nowhere_row) "" "" "" "" "") l).
Proof.
  split; [exact nowhere_unparseable |].
  intros (l & H). vm_compute in H. discriminate H.
Qed.

(** C4, as the code has it: when line 4 lower-cases to a known country the
    row gets country = line 4, state = line 3, city = line 2, address =
    line 1, owner = the owner name and an empty zip; when line 4 is UNKNOWN
    it gets the owner name and five empty strings. *)
Theorem country_or_unknown_line4 (l : Locals) (row : Row) :
  (mem (lower (mail_addr4 row)) countriesList = true ->
   parse_row l row =
     Next (columns (owner_name row) (mail_addr1 row) (mail_addr2 row)
                   (mail_addr3 row) "" (mail_addr4 row))
          (locals (owner_name row) (mail_addr1 row) (mail_addr2 row)
                  (mail_addr3 row) "" (mail_addr4 row))) /\
  (mail_addr4 row = "UNKNOWN" ->
   parse_row l row =
     Next (columns (owner_name row) "" "" "" "" "")
          (locals (owner_name row) "" "" "" "" "")).
Proof.
  split.
  - intros Hc.
    assert (Hb : mail_addr4 row <> " ").
    { intros E. rewrite E in Hc. discriminate Hc. }
    unfold parse_row. rewrite (proj2 (ladder_mail_addr4 row) Hb).
    unfold run_rung, rung_mail_addr4.
    rewrite Hc, andb_false_r. reflexivity.
  - intros Hu.
    assert (Hb : mail_addr4 row <> " ") by (rewrite Hu; discriminate).
    unfold parse_row. rewrite (proj2 (ladder_mail_addr4 row) Hb).
    unfold run_rung, rung_mail_addr4.
    rewrite Hu. reflexivity.
Qed.

Lemma country_or_unknown_line4_witness :
  parse_row unbound japan_row =
    Next (columns "SATO KEN" "1-2 GINZA" "CHUO-KU" "TOKYO" "" "JAPAN")
         (locals "SATO KEN" "1-2 GINZA" "CHUO-KU" "TOKYO" "" "JAPAN") /\
  parse_row unbound unknown_row =
    Next (columns "SMITH JOHN" "" "" "" "" "")
         (locals "SMITH JOHN" "" "" "" "" "").
Proof.
  split.
  - exact (proj1 (country_or_unknown_line4 unbound japan_row) eq_refl).
  - exact (proj2 (country_or_unknown_line4 unbound unknown_row) eq_refl).
Defined.

(** C4 as stated fails on the sentinel: the row UNKNOWN does not get
    country = line 4 (nor state = line 3). *)
Lemma unknown_line4_no_country :
  mail_addr4 unknown_row = "UNKNOWN" /\
  ~ (exists o l, parse_row unbound unknown_row = Next o l /\
                 owner_country o = VStr (mail_addr4 unknown_row)).
Proof.
  split; [reflexivity |].
  intros (o & l & H & Hk).
  vm_compute in H. injection H as <- _. discriminate Hk.
Qed.

(** ** The United States rung *)

(** C5, as the code has it: the guard of the United States rung asks that
    line 4 and line 3 are blank and that the owner name is the literal; it
    does not look at line 1. The row with four blank lines and that owner
    takes this rung and gets the owner, line 1 (one space) as address, and
    empty city, state, zip and country. *)
Theorem united_states_rung_reached (l : Locals) (row : Row) :
  mail_addr4 row = " " -> mail_addr3 row = " " -> owner_name row = usa ->
  ladder row = UnitedStates /\
  (mail_addr1 row = " " -> mail_addr2 row = " " ->
   parse_row l row = Next (columns usa " " "" "" "" "")
                          (locals usa " " "" "" "" "")).
Proof.
  intros H4 H3 Ho.
  assert (Hl : ladder row = UnitedStates).
  { apply ladder_united_states. now repeat split. }
  split; [exact Hl |].
  intros H1 H2. unfold parse_row. rewrite Hl.
  unfold run_rung, rung_united_states. rewrite H2, H1, Ho. reflexivity.
Qed.

Lemma united_states_rung_reached_witness :
  ladder usa_blank_row = UnitedStates /\
  parse_row unbound usa_blank_row =
    Next (columns usa " " "" "" "" "") (locals usa " " "" "" "" "").
Proof.
  destruct (united_states_rung_reached unbound usa_blank_row
              eq_refl eq_refl eq_refl) as [Hl Hp].
  split; [exact Hl | exact (Hp eq_refl eq_refl)].
Defined.

(** C5 as stated fails: the row with four blank lines and the United States
    as owner does take the United States rung. *)
Lemma united_states_rung_not_excluded :
  mail_addr1 usa_blank_row = " " /\ mail_addr2 usa_blank_row = " " /\
  mail_addr3 usa_blank_row = " " /\ mail_addr4 usa_blank_row = " " /\
  owner_name usa_blank_row = "UNITED STATES OF AMERICA" /\
  ~ (ladder usa_blank_row <> UnitedStates).
Proof.
  repeat split. intros H. apply H. reflexivity.
Qed.

(** ** Every row: passed over, or six strings *)

Ltac six := unfold six_strings; do 6 eexists; reflexivity.
Ltac by_cases b := destruct b; [six |].

Lemma rung4_outcome (l : Locals) (row : Row) :
  mail_addr4 row <> " " ->
  numberless_line3 row = false ->
  (unparseable (mail_addr4 row) /\ parse_row l row = Continue l) \/
  (~ unparseable (mail_addr4 row) /\ six_strings (parse_row l row)).
Proof.
  intros Hb Hn.
  destruct (unparseable_dec (mail_addr4 row)) as [Hu | Hu].
  { left. split; [exact Hu | now apply skip_unparseable]. }
  right. split; [exact Hu |].
  unfold parse_row. rewrite (proj2 (ladder_mail_addr4 row) Hb).
  unfold numberless_line3 in Hn. unfold unparseable in Hu.
  unfold run_rung, rung_mail_addr4. cbv zeta in *.
  apply String.eqb_neq in Hb. rewrite Hb in Hn.
  destruct (String.eqb_spec (mail_addr4 row) "UNKNOWN") as [E | E];
    [rewrite E; six |].
  destruct (mem (lower (mail_addr4 row)) countriesList) eqn:Hc; [six |].
  destruct (search cityStateZipRegex (mail_addr4 row)) as [m |] eqn:Hs.
  2:{ exfalso. apply Hu. apply String.eqb_neq in Hb. tauto. }
  destruct (cityStateZip_groups _ _ Hs) as (c & st & z & Hg1 & Hg2 & Hg3).
  unfold assign_group. rewrite Hg1, Hg2, Hg3.
  simpl in Hn.
  by_cases (startswith (mail_addr3 row) "PO" || startswith (mail_addr3 row) "P O").
  by_cases (contains "PO BOX" (mail_addr3 row)
            || contains "P O BOX" (mail_addr3 row)
            || contains "P.O. BOX" (mail_addr3 row)).
  destruct (search addressRegex (mail_addr3 row)) as [a |] eqn:Ha;
    [| discriminate Hn].
  destruct (address_group _ _ Ha) as (t & Ht). rewrite Ht. six.
Qed.

Lemma rung3_six (l : Locals) (row : Row) :
  six_strings ((run_rung MailAddr3 row ;; write_columns)%parse l).
Proof.
  unfold run_rung, rung_mail_addr3. cbv zeta.
  destruct (search cityStateZipRegex (mail_addr3 row)) as [m |] eqn:Hs; [| six].
  destruct (cityStateZip_groups _ _ Hs) as (c & st & z & Hg1 & Hg2 & Hg3).
  unfold assign_group. rewrite Hg1, Hg2, Hg3.
  set (row2 := if startswith (mail_addr2 row) " " then _ else _).
  by_cases (startswith row2 "PO" || startswith row2 "P O"
            || startswith row2 "P.O.").
  by_cases (contains "PO BOX" row2 || contains "P O BOX" row2
            || startswith row2 "ONE " || startswith row2 "TWO ").
  destruct (search addressRegex row2) as [a |] eqn:Ha; [| six].
  destruct (address_group _ _ Ha) as (t & Ht). rewrite Ht. six.
Qed.

Lemma united_states_six (l : Locals) (row : Row) :
  six_strings ((run_rung UnitedStates row ;; write_columns)%parse l).
Proof.
  unfold run_rung, rung_united_states. cbv zeta.
  destruct (search cityStateZipRegex (mail_addr2 row)) as [m |] eqn:Hs; [| six].
  destruct (cityStateZip_groups _ _ Hs) as (c & st & z & Hg1 & Hg2 & Hg3).
  unfold assign_group. rewrite Hg1, Hg2, Hg3. six.
Qed.

Lemma rung2_six (l : Locals) (row : Row) :
  negb (mail_addr2 row =? " ")
  && is_none (search cityStateZipRegex (mail_addr2 row)) = false ->
  six_strings ((run_rung MailAddr2 row ;; write_columns)%parse l).
Proof.
  intros Hf. unfold run_rung, rung_mail_addr2. cbv zeta.
  destruct (mail_addr2 row =? " "); [six |].
  destruct (search cityStateZipRegex (mail_addr2 row)) as [m |] eqn:Hs;
    [| discriminate Hf].
  destruct (cityStateZip_groups _ _ Hs) as (c & st & z & Hg1 & Hg2 & Hg3).
  unfold mail_addr2_domestic, assign_group. rewrite Hg1, Hg2, Hg3. cbv zeta.
  set (row1 := if startswith (mail_addr1 row) " " then _ else _).
  by_cases (startswith row1 "PO" || startswith row1 "P.O."
            || startswith row1 "P O" || startswith row1 "P  O").
  destruct (contains "PO BOX" row1 || contains "P O BOX" row1).
  - destruct (search poBoxRegex row1) as [b |] eqn:Hp; [| six].
    destruct (poBox_group _ _ Hp) as (t & Ht). rewrite Ht. six.
  - destruct (search addressRegex row1) as [a |] eqn:Ha; [| six].
    simpl is_none. simpl orb.
    by_cases (startswith row1 "ONE").
    destruct (address_group _ _ Ha) as (t & Ht). rewrite Ht. six.
Qed.

(** C1, as the code has it: the parse of a row always terminates, and for
    every row and whatever the locals left by earlier rows, either the row
    is passed over by [continue] with no column written (exactly when line 4
    is present, is not UNKNOWN, is not a known country and does not match
    city, state and zip), or all six columns are assigned strings. This is
    stated for the rows outside two cases: line 4 parsed and line 3 with
    neither a PO box form nor a street number, and the last rung with a
    line 2 that is present and does not match city, state and zip. *)
Theorem parse_row_outcome (l : Locals) (row : Row) :
  numberless_line3 row = false -> foreign_line2 row = false ->
  (unparseable (mail_addr4 row) /\ parse_row l row = Continue l) \/
  (~ unparseable (mail_addr4 row) /\ six_strings (parse_row l row)).
Proof.
  intros Hn Hf.
  destruct (String.eqb_spec (mail_addr4 row) " ") as [Hb | Hb];
    [| now apply rung4_outcome].
  right. split; [unfold unparseable; tauto |].
  unfold foreign_line2 in Hf. unfold parse_row.
  destruct (ladder row) eqn:Hl.
  - apply ladder_mail_addr4 in Hl. contradiction.
  - apply rung3_six.
  - apply united_states_six.
  - six.
  - six.
  - now apply rung2_six.
Qed.

Lemma parse_row_outcome_witness :
  numberless_line3 tahoe_row = false /\ foreign_line2 tahoe_row = false /\
  ((unparseable (mail_addr4 tahoe_row) /\
    parse_row unbound tahoe_row = Continue unbound) \/
   (~ unparseable (mail_addr4 tahoe_row) /\
    six_strings (parse_row unbound tahoe_row))).
Proof.
  split; [reflexivity |]. split; [reflexivity |].
  exact (parse_row_outcome unbound tahoe_row eq_refl eq_refl).
Defined.

(** C1 as stated fails: the row NOWHERE is passed over, it gets no
    columns. *)
Lemma parse_row_not_total :
  parse_row unbound nowhere_row = Continue unbound /\
  ~ (exists o l, parse_row unbound nowhere_row = Next o l).
Proof.
  split; [reflexivity |].
  intros (o & l & H). vm_compute in H. discriminate H.
Qed.

(** Line 205 has no test for [None]: when the address pattern does not
    match line 3 the iteration raises, and the loop with it. *)
Lemma numberless_line3_raises (l : Locals) (row : Row) :
  numberless_line3 row = true -> parse_row l row = Throw AttributeError.
Proof.
  unfold numberless_line3. cbv zeta. intros H.
  repeat (apply andb_prop in H; destruct H as [H ?]).
  repeat match goal with
         | H : negb _ = true |- _ => apply negb_true_iff in H
         end.
  unfold parse_row, ladder.
  match goal with H : (mail_addr4 row =? " ") = false |- _ => rewrite H end.
  simpl negb. cbv iota. unfold run_rung, rung_mail_addr4. cbv zeta.
  destruct (search cityStateZipRegex (mail_addr4 row)) as [m |] eqn:Hs;
    [| discriminate].
  destruct (cityStateZip_groups _ _ Hs) as (c & st & z & Hg1 & Hg2 & Hg3).
  unfold assign_group. rewrite Hg1, Hg2, Hg3.
  repeat match goal with H : _ = false |- _ => rewrite H end.
  destruct (search addressRegex (mail_addr3 row)); [discriminate |].
  reflexivity.
Qed.

Example numberless_row_raises :
  parse_row unbound numberless_row = Throw AttributeError.
Proof. reflexivity. Qed.

(** Lines 316-327 assign no address, and nothing at all when line 2 names
    neither country: the columns come from the row before, or the read of
    an unbound local raises. *)
Example england_row_unbound :
  parse_row unbound england_row = Throw (UnboundLocalError "address").
Proof. reflexivity. Qed.

Example canada_row_stale_address :
  parse_row (locals "SMITH JOHN    " "123 MAIN ST" "SOUTH LAKE TAHOE" "CA"
                    "96150" "") canada_row =
    Next (columns "ROY ANNE" "123 MAIN ST" "VANCOUVER" "BC" "V6B 1A1" "CANADA")
         (locals "ROY ANNE" "123 MAIN ST" "VANCOUVER" "BC" "V6B 1A1" "CANADA").
Proof. reflexivity. Qed.

(** ** The legacy parcel id *)

Lemma substring_take_drop (s : string) :
  forall n m, substring n m s = take m (drop n s).
Proof.
  induction s as [| c s IH]; intros [| n] [| m]; simpl; try reflexivity.
  - now rewrite IH.
  - apply IH.
  - apply IH.
Qed.

Lemma take_all (s : string) :
  forall n, (String.length s <= n)%nat -> take n s = s.
Proof.
  induction s as [| c s IH]; intros [| n] H; simpl in *;
    try reflexivity; try lia.
  f_equal. apply IH. lia.
Qed.

Lemma length_take (s : string) :
  forall n, String.length (take n s) = Nat.min n (String.length s).
Proof.
  induction s as [| c s IH]; intros [| n]; simpl; try reflexivity.
  now rewrite IH.
Qed.

Lemma length_drop (s : string) :
  forall n, String.length (drop n s) = (String.length s - n)%nat.
Proof.
  induction s as [| c s IH]; intros [| n]; simpl; try reflexivity.
  apply IH.
Qed.

Lemma length_concat (a b : string) :
  String.length (a ++ b) = (String.length a + String.length b)%nat.
Proof.
  induction a as [| c a IH]; simpl; [reflexivity | now rewrite IH].
Qed.

(** [s[:n]] *)
Lemma slice_to (s : string) (n : nat) :
  slice s None (Some (Z.of_nat n)) = take n s.
Proof.
  unfold slice, adjust.
  destruct (Z.ltb_spec (Z.of_nat n) 0); [lia |].
  destruct (Z.leb_spec (Z.of_nat (String.length s)) (Z.of_nat n)).
  - destruct (Z.ltb_spec 0 (Z.of_nat (String.length s))).
    + rewrite substring_take_drop, Z.sub_0_r, Nat2Z.id. simpl.
      rewrite !take_all; [reflexivity | lia | lia].
    + destruct s; [now destruct n | simpl in *; lia].
  - destruct (Z.ltb_spec 0 (Z.of_nat n)).
    + now rewrite substring_take_drop, Z.sub_0_r, Nat2Z.id.
    + assert (n = 0)%nat by lia. subst. now destruct s.
Qed.

(** [s[-n:]] for a positive [n] *)
Lemma slice_last (s : string) (n : nat) :
  (0 < n)%nat ->
  slice s (Some (- Z.of_nat n)%Z) None = drop (String.length s - n) s.
Proof.
  intros Hn. unfold slice, adjust.
  destruct (Z.ltb_spec (- Z.of_nat n) 0); [| lia].
  set (len := Z.of_nat (String.length s)).
  assert (Hd : forall a : nat, substring a (String.length s - a) s = drop a s).
  { intros a. rewrite substring_take_drop. apply take_all.
    rewrite length_drop. lia. }
  destruct (Z.ltb_spec (- Z.of_nat n + len) 0).
  - replace (String.length s - n)%nat with 0%nat by lia.
    destruct (Z.ltb_spec 0 len).
    + rewrite Z.sub_0_r. unfold len. rewrite Nat2Z.id. simpl Z.to_nat.
      rewrite <- (Hd 0%nat). now rewrite Nat.sub_0_r.
    + destruct s; [reflexivity | unfold len in *; simpl in *; lia].
  - destruct (Z.ltb_spec (- Z.of_nat n + len) len); [| lia].
    replace (Z.to_nat (- Z.of_nat n + len)) with (String.length s - n)%nat
      by (unfold len; lia).
    replace (Z.to_nat (len - (- Z.of_nat n + len)))
      with (String.length s - (String.length s - n))%nat by (unfold len; lia).
    apply Hd.
Qed.

Lemma derive_take_drop (s : string) :
  derive s = take 6 s ++ drop (String.length s - 2) s.
Proof.
  unfold derive. f_equal.
  - apply (slice_to s 6).
  - apply (slice_last s 2). lia.
Qed.

(** C8: for a source parcel identifier of at least 8 characters the join key
    is its first six characters followed by its last two, 8 characters in
    all; and the key of 060123045601 is 06012301. *)
Theorem derive_long_id :
  (forall sourceId : string,
     (8 <= String.length sourceId)%nat ->
     derive sourceId =
       substring 0 6 sourceId ++ substring (String.length sourceId - 2) 2 sourceId
     /\ String.length (derive sourceId) = 8%nat) /\
  derive "060123045601" = "06012301".
Proof.
  split; [| reflexivity].
  intros s H. rewrite derive_take_drop, !substring_take_drop. simpl drop at 1.
  assert (Hl : take 2 (drop (String.length s - 2) s)
               = drop (String.length s - 2) s).
  { apply take_all. rewrite length_drop. lia. }
  rewrite Hl. split; [reflexivity |].
  rewrite length_concat, length_take, length_drop. lia.
Qed.

Lemma derive_long_id_witness :
  (8 <= String.length "060123045601")%nat /\
  derive "060123045601" = "060123" ++ "01" /\
  String.length (derive "060123045601") = 8%nat.
Proof.
  assert (H : (8 <= String.length "060123045601")%nat) by (simpl; lia).
  split; [exact H |].
  exact (proj1 derive_long_id "060123045601" H).
Defined.

(** C10: the derivation needs no length precondition. For every string it
    is the two slices put together: the first six characters, or all of them
    when there are fewer, then the last two, or all of them when there are
    fewer; nothing raises, and the second cursor loop writes that key to
    every row. So a short identifier has characters in both slices: a
    3-character identifier gives a 5-character key, the empty one the empty
    key. *)
Theorem derive_total (sourceId : string) (fs : list Feature) :
  derive sourceId =
    take 6 sourceId ++ drop (String.length sourceId - 2) sourceId /\
  String.length (derive sourceId) =
    (Nat.min 6 (String.length sourceId) + Nat.min 2 (String.length sourceId))%nat /\
  (String.length sourceId = 3%nat -> String.length (derive sourceId) = 5%nat) /\
  derive "abc" = "abcbc" /\
  derive "" = "" /\
  map prcl_id_join (join_loop fs) =
    map (fun f => VStr (derive (prcl_id (raw f)))) fs.
Proof.
  assert (Hlen : String.length (derive sourceId) =
                 (Nat.min 6 (String.length sourceId)
                  + Nat.min 2 (String.length sourceId))%nat).
  { rewrite derive_take_drop, length_concat, length_take, length_drop. lia. }
  split; [apply derive_take_drop |].
  split; [exact Hlen |].
  split; [intros H3; rewrite Hlen, H3; reflexivity |].
  split; [reflexivity |]. split; [reflexivity |].
  unfold join_loop. rewrite map_map. reflexivity.
Qed.

Lemma derive_total_witness :
  String.length (derive "abc") = 5%nat.
Proof.
  destruct (derive_total "abc" []) as (_ & _ & H & _).
  exact (H eq_refl).
Defined.

(** ** The update decision and the empty extract *)

Lemma dt_eq_instant (a b : aware) :
  dt_eq a b = true <-> instant a = instant b.
Proof.
  unfold dt_eq, instant.
  destruct (Z.eqb_spec (utcoffset a) (utcoffset b)); rewrite Z.eqb_eq; lia.
Qed.

Lemma dt_ne_instant (a b : aware) :
  dt_ne a b = true <-> instant a <> instant b.
Proof.
  unfold dt_ne. rewrite negb_true_iff, <- dt_eq_instant.
  destruct (dt_eq a b); split; congruence.
Qed.

(** Every call on a collaborator in sight returns or raises. *)
Ltac each_call :=
  repeat match goal with
         | |- context [raises ?env ?h ?e] =>
             let E := fresh "Hcall" in
             destruct (raises env h e) eqn:E; simpl
         end.

(** The steps of the orchestration, down to the calls. *)
Ltac steps :=
  unfold main, try_body, try_except, updateParcels, load, on_error,
    email_smtp, truncate_table, append_rows, call, log, emit, mbind, lift,
    start;
  simpl.

(** With no zip folder left over, whatever happens next, [updateParcels]
    has submitted the job. *)
Lemma submit_recorded (env : Env) (w : World) :
  existing_zip env = false ->
  existsb is_submit (events (snd (updateParcels env w))) = true.
Proof.
  intros Hz. steps. rewrite Hz. simpl.
  destruct (extract env) as [rows | e]; simpl; [| reflexivity].
  each_call; try reflexivity;
    (destruct (get_count (map fresh rows) =? "0"); simpl;
     each_call; try reflexivity);
    (destruct (parse_loop unbound (map fresh rows)); simpl;
     each_call; reflexivity).
Qed.

(** [main] up to the comparison, when the dates are not the same instant. *)
Lemma main_reloads (env : Env) (d : list Feature) (edc slt : aware) :
  edcLastUpdate env = Ok edc -> sltLastUpdate env = Ok slt ->
  instant slt <> instant edc ->
  main env (start d) =
    try_except (updateParcels env) (on_error env)
      {| destination := d;
         events := Log INFO "Parcels need updating"
                   :: events (checked edc slt d) |}.
Proof.
  intros He Hs Hi. apply dt_ne_instant in Hi.
  unfold main, try_body, try_except, mbind, lift. simpl.
  rewrite He, Hs. simpl.
  rewrite Hi. reflexivity.
Qed.

Lemma main_up_to_date (env : Env) (d : list Feature) (edc slt : aware) :
  edcLastUpdate env = Ok edc -> sltLastUpdate env = Ok slt ->
  instant slt = instant edc ->
  main env (start d) =
    (Ok tt,
     {| destination := d;
        events := Log INFO "Parcels up to date, stopping script"
                  :: events (checked edc slt d) |}).
Proof.
  intros He Hs Hi. apply dt_eq_instant in Hi.
  unfold main, try_body, try_except, mbind, lift. simpl.
  rewrite He, Hs. simpl.
  unfold dt_ne. rewrite Hi. reflexivity.
Qed.

(** C6: the remote date is not moved to Pacific time, it is read as wall
    time of the machine's own zone and that wall time is called Pacific; the
    local date is moved from UTC to Pacific. On a machine on UTC, with the
    remote date 1700000000000 ms and the newest local date that same
    instant, the two compare unequal: the run logs that the parcels need
    updating, submits the job and replaces the destination. On a machine on
    Pacific time the same two dates compare equal and the run stops with no
    job and the destination as it was. *)
Theorem equal_dates_reload_off_pacific :
  hd 0%Z (local_dates (utc_machine_env 1700000000000000 (Ok [tahoe_row])))
    = (remote_date (utc_machine_env 1700000000000000 (Ok [tahoe_row]))
       * 1000)%Z /\
  edcLastUpdate (utc_machine_env 1700000000000000 (Ok [tahoe_row]))
    = Ok {| wall := 1700000000000000; utcoffset := pst |} /\
  sltLastUpdate (utc_machine_env 1700000000000000 (Ok [tahoe_row]))
    = Ok {| wall := 1700000000000000 + pst; utcoffset := pst |} /\
  existsb is_submit
    (events (snd (main (utc_machine_env 1700000000000000 (Ok [tahoe_row]))
                    (start [fresh japan_row])))) = true /\
  map raw
    (destination
       (snd (main (utc_machine_env 1700000000000000 (Ok [tahoe_row]))
               (start [fresh japan_row])))) = [tahoe_row] /\
  main (sample_env 1700000000000000 (Ok [tahoe_row]))
       (start [fresh japan_row]) =
    (Ok tt,
     {| destination := [fresh japan_row];
        events :=
          [Log INFO "Parcels up to date, stopping script";
           LogDate "Local newest date: "
                   {| wall := 1700000000000000 + pst; utcoffset := pst |};
           LogDate "EDC newest date: " remote_sample;
           Log INFO "Starting Script"] |}).
Proof. repeat split; reflexivity. Qed.

(** C7: when the extract has no rows, [updateParcels] calls neither
    truncate nor append and sends no success mail, and the destination
    keeps its rows, whether or not a call on a collaborator raises. When the
    calls return, it logs the error, sends the mail whose subject says that
    the data is blank and returns normally; and it returns normally only
    after that mail. The subject of that mail is neither the one of the
    success mail nor the one of the error mail. *)
Theorem empty_extract_leaves_destination (env : Env) (d : list Feature)
    (rows : list Row) :
  extract env = Ok rows -> List.length rows = 0%nat ->
  (quiet env -> fst (updateParcels env (start d)) = Ok tt) /\
  destination (snd (updateParcels env (start d))) = d /\
  (fst (updateParcels env (start d)) = Ok tt ->
   exists before,
     events (snd (updateParcels env (start d))) =
       Log INFO "Email Sent" :: SendMail blank_subject blank_body
       :: Log ERROR "The parcel data from EDC is blank." :: GetCount :: before) /\
  existsb is_truncate (events (snd (updateParcels env (start d)))) = false /\
  existsb is_append (events (snd (updateParcels env (start d)))) = false /\
  existsb (is_mail success_subject)
    (events (snd (updateParcels env (start d)))) = false /\
  blank_subject <> success_subject /\ blank_subject <> error_subject.
Proof.
  intros He Hn. destruct rows as [| r rows]; [| discriminate Hn].
  split.
  { intros Hq. steps. rewrite He. simpl.
    destruct (existing_zip env); simpl; repeat (rewrite Hq; simpl);
      reflexivity. }
  steps. rewrite He. simpl.
  destruct (existing_zip env); simpl; each_call;
    (repeat split; try reflexivity; try discriminate;
     intros _; eexists; reflexivity).
Qed.

Lemma empty_extract_leaves_destination_witness :
  fst (updateParcels (sample_env 1700000000000001 (Ok []))
         (start [fresh tahoe_row])) = Ok tt /\
  destination
    (snd (updateParcels (sample_env 1700000000000001 (Ok []))
            (start [fresh tahoe_row]))) = [fresh tahoe_row] /\
  existsb is_truncate
    (events (snd (updateParcels (sample_env 1700000000000001 (Ok []))
                    (start [fresh tahoe_row])))) = false.
Proof.
  destruct (empty_extract_leaves_destination
              (sample_env 1700000000000001 (Ok [])) [fresh tahoe_row] []
              eq_refl eq_refl) as (Hr & Hd & _ & Ht & _).
  split; [apply Hr; intros h e; reflexivity |].
  split; [exact Hd | exact Ht].
Defined.

(** A run that reloads: one row, parsed, keyed, truncated and appended. *)
Example reload_one_row :
  snd (main (sample_env 1700000000000001 (Ok [tahoe_row])) (start [])) =
    {| destination :=
         [{| raw := tahoe_row;
             own := columns "SMITH JOHN    " "123 MAIN ST" "SOUTH LAKE TAHOE"
                            "CA" "96150" "";
             prcl_id_join := VStr "06012301" |}];
       events :=
         [Log INFO "Email Sent";
          SendMail success_subject "Parcels were successfully updated.";
          Log INFO "Parcels were successfully updated.";
          Log INFO "Zip folder deleted";
          Rmtree;
          Log INFO "New parcels copied";
          Append [{| raw := tahoe_row;
                     own := columns "SMITH JOHN    " "123 MAIN ST"
                                    "SOUTH LAKE TAHOE" "CA" "96150" "";
                     prcl_id_join := VStr "06012301" |}];
          Log INFO "Old parcels truncated";
          TruncateTable;
          Log INFO "Creating legacy parcel ID";
          Log INFO "Parsing ownership and address info...";
          AddFields;
          DeleteField "OBJECTID";
          GetCount;
          SubmitJob;
          Log INFO "Requesting parcels from EDC";
          Log INFO "Parcels need updating";
          LogDate "Local newest date: " local_ahead;
          LogDate "EDC newest date: " remote_sample;
          Log INFO "Starting Script"] |}.
Proof. reflexivity. Qed.

(** A run whose loop raises at line 205: the handler mails the error and
    the destination is not touched. *)
Example reload_raises :
  main (sample_env 1700000000000001 (Ok [tahoe_row; numberless_row]))
       (start [fresh japan_row]) =
    (Ok tt,
     {| destination := [fresh japan_row];
        events :=
          [SendMail error_subject error_body;
           Log ERROR "Python Errors:";
           Log ERROR "There was an error";
           Log INFO "Parsing ownership and address info...";
           AddFields;
           DeleteField "OBJECTID";
           GetCount;
           SubmitJob;
           Log INFO "Requesting parcels from EDC";
           Log INFO "Parcels need updating";
           LogDate "Local newest date: " local_ahead;
           LogDate "EDC newest date: " remote_sample;
           Log INFO "Starting Script"] |}).
Proof. reflexivity. Qed.

(* ------------------------------------------------------------------ *)
(** * More properties of the code *)

Import Extraction Shapes.

(** ** What a match of a pattern looks like *)

Lemma concat_assoc (a b c : string) : (a ++ b) ++ c = a ++ (b ++ c).
Proof.
  induction a as [| x a IH]; simpl; [reflexivity | now rewrite IH].
Qed.

Lemma take_concat (pre rest : string) :
  take (String.length (pre ++ rest) - String.length rest) (pre ++ rest) = pre.
Proof.
  rewrite length_concat.
  replace (String.length pre + String.length rest - String.length rest)%nat
    with (String.length pre) by lia.
  induction pre as [| c pre IH]; simpl.
  - now destruct rest.
  - now rewrite IH.
Qed.

Lemma all_chars_concat (p : ascii -> bool) (a b : string) :
  all_chars p (a ++ b) = all_chars p a && all_chars p b.
Proof.
  induction a as [| c a IH]; simpl; [reflexivity |].
  now rewrite IH, andb_assoc.
Qed.

Lemma startswith_concat (s t : string) :
  startswith s t = true -> s = t ++ drop (String.length t) s.
Proof.
  revert s. induction t as [| c t IH]; intros s H; simpl in *.
  - now destruct s.
  - destruct s as [| d s]; [destruct c; discriminate |].
    simpl in H. apply andb_prop in H as [Hc Ht].
    apply Ascii.eqb_eq in Hc. subst d. simpl. f_equal. now apply IH.
Qed.

(** The tails that a repetition can leave: each one is the input without a
    prefix of characters of the class, no shorter than [lo] and no longer
    than the bound. *)
Lemma rep_tails_prefix (p : ascii -> bool) (s : string) :
  forall lo hi t,
    In t (skipn lo (rep_tails p hi s)) ->
    exists pre,
      s = pre ++ t /\ all_chars p pre = true /\
      (lo <= String.length pre)%nat /\
      match hi with
      | Some h => (String.length pre <= h)%nat
      | None => True
      end.
Proof.
  induction s as [| c s IH]; intros lo hi t Hin.
  - assert (Ht : rep_tails p hi "" = [""]) by (destruct hi as [[| h] |]; reflexivity).
    rewrite Ht in Hin.
    destruct lo as [| lo]; simpl in Hin.
    + destruct Hin as [<- | []]. exists "". repeat split; try reflexivity.
      destruct hi; [simpl; lia | exact I].
    + destruct lo; contradiction.
  - simpl in Hin.
    destruct lo as [| lo].
    + simpl in Hin. destruct Hin as [<- | Hin].
      * exists "". repeat split; try reflexivity.
        destruct hi; [simpl; lia | exact I].
      * destruct hi as [[| h] |]; try contradiction;
          (destruct (p c) eqn:Hp; [| contradiction]);
          (apply (IH 0%nat) in Hin as (pre & -> & Ha & _ & Hb));
          exists (String c pre); simpl in Hb |- *; rewrite Hp, Ha;
          repeat split; first [lia | exact I].
    + simpl in Hin.
      destruct hi as [[| h] |]; try (destruct lo; contradiction);
        (destruct (p c) eqn:Hp; [| destruct lo; contradiction]);
        (apply IH in Hin as (pre & -> & Ha & Hl & Hb));
        exists (String c pre); simpl in Hb |- *; rewrite Hp, Ha;
        repeat split; first [lia | exact I].
Qed.

Lemma in_cat (a b : regex) (s : string) (w : way) :
  In w (matches (Cat a b) s) ->
  exists w1 w2,
    In w1 (matches a s) /\ In w2 (matches b (fst w1)) /\
    fst w = fst w2 /\ snd w = (snd w1 ++ snd w2)%list.
Proof.
  simpl. intros Hin.
  apply in_flat_map in Hin as (w1 & H1 & Hin).
  apply in_map_iff in Hin as (w2 & <- & H2).
  now exists w1, w2.
Qed.

Lemma in_cls (p : ascii -> bool) (s : string) (w : way) :
  In w (matches (Cls p) s) ->
  exists c, s = String c (fst w) /\ p c = true /\ snd w = [].
Proof.
  simpl. destruct s as [| c s]; [contradiction |].
  destruct (p c) eqn:Hp; [| contradiction].
  intros [<- | []]. now exists c.
Qed.

Lemma in_lit (t s : string) (w : way) :
  In w (matches (Lit t) s) -> s = t ++ fst w /\ snd w = [].
Proof.
  simpl. destruct (startswith s t) eqn:Hs; [| contradiction].
  intros [<- | []]. split; [now apply startswith_concat | reflexivity].
Qed.

Lemma in_rep (p : ascii -> bool) (lo : nat) (hi : option nat) (g : bool)
    (s : string) (w : way) :
  In w (matches (Rep p lo hi g) s) ->
  exists pre,
    s = pre ++ fst w /\ all_chars p pre = true /\
    (lo <= String.length pre)%nat /\
    match hi with
    | Some h => (String.length pre <= h)%nat
    | None => True
    end /\ snd w = [].
Proof.
  simpl. intros Hin. apply in_map_iff in Hin as (t & <- & Hin).
  assert (Ht : In t (skipn lo (rep_tails p hi s))).
  { destruct g; [now apply in_rev in Hin | exact Hin]. }
  apply rep_tails_prefix in Ht as (pre & -> & Ha & Hl & Hb).
  exists pre. now repeat split.
Qed.

(** Whatever a pattern matches is a prefix of the input. *)
Lemma matches_prefix (r : regex) :
  forall s w, In w (matches r s) -> exists pre, s = pre ++ fst w.
Proof.
  induction r as [p | t | a IHa b IHb | p lo hi g | i a IHa | a IHa];
    intros s w Hin.
  - apply in_cls in Hin as (c & -> & _). now exists (String c "").
  - apply in_lit in Hin as (-> & _). now exists t.
  - apply in_cat in Hin as (w1 & w2 & H1 & H2 & Hf & _).
    apply IHa in H1 as (p1 & ->). apply IHb in H2 as (p2 & E).
    exists (p1 ++ p2). rewrite Hf, concat_assoc. now f_equal.
  - apply in_rep in Hin as (pre & -> & _). now exists pre.
  - simpl in Hin. apply in_map_iff in Hin as (w1 & <- & H1).
    now apply IHa in H1.
  - simpl in Hin. destruct (matches a s); [contradiction |].
    destruct Hin as [<- | []]. now exists "".
Qed.

Lemma in_grp (i : nat) (a : regex) (s : string) (w : way) :
  In w (matches (Grp i a) s) ->
  exists w1 pre,
    In w1 (matches a s) /\ s = pre ++ fst w1 /\
    fst w = fst w1 /\ snd w = (snd w1 ++ [(i, pre)])%list.
Proof.
  simpl. intros Hin. apply in_map_iff in Hin as (w1 & <- & H1).
  destruct (matches_prefix a s w1 H1) as (pre & E).
  exists w1, pre. repeat split; try assumption.
  simpl. rewrite E at 1 2. now rewrite take_concat.
Qed.

Lemma in_ahead (a : regex) (s : string) (w : way) :
  In w (matches (Ahead a) s) ->
  fst w = s /\ exists w1, In w1 (matches a s) /\ snd w = snd w1.
Proof.
  simpl. destruct (matches a s) as [| w1 rest] eqn:E; [contradiction |].
  intros [<- | []]. split; [reflexivity |]. exists w1. split; [now left | reflexivity].
Qed.

Lemma take_rest (s pre rest : string) :
  s = pre ++ rest ->
  s = take (String.length s - String.length rest) s ++ rest.
Proof.
  intros ->. now rewrite take_concat.
Qed.

(** [re.search] returns the first way of the pattern on a tail of the
    input. *)
Lemma search_way (r : regex) :
  forall s m,
    search r s = Some m ->
    exists before tail w l,
      s = before ++ tail /\ matches r tail = w :: l /\ groups m = snd w /\
      tail = whole m ++ fst w.
Proof.
  induction s as [| c s IH]; intros m Hs; simpl in Hs.
  - destruct (matches r "") as [| w rest] eqn:E; [discriminate |].
    injection Hs as <-. exists "", "", w, rest. simpl.
    assert (Hin : In w (matches r "")) by (rewrite E; now left).
    repeat split; try assumption.
    destruct (matches_prefix r "" w Hin) as (pre & Ep).
    exact (take_rest _ _ _ Ep).
  - destruct (matches r (String c s)) as [| w rest] eqn:E.
    + apply IH in Hs as (before & tail & w & l & -> & Hin & Hg & Hw).
      now exists (String c before), tail, w, l.
    + injection Hs as <-. exists "", (String c s), w, rest.
      assert (Hin : In w (matches r (String c s))) by (rewrite E; now left).
      repeat split; try assumption.
      destruct (matches_prefix r _ w Hin) as (pre & Ep).
      exact (take_rest _ _ _ Ep).
Qed.

(** The first way of a sequence: some way of the left part, then the first
    way of the right part after it. *)
Lemma hd_cat (a b : regex) (s : string) (w : way) (l : list way) :
  matches (Cat a b) s = w :: l ->
  exists w1 w2 l2,
    In w1 (matches a s) /\ matches b (fst w1) = w2 :: l2 /\
    fst w = fst w2 /\ snd w = (snd w1 ++ snd w2)%list.
Proof.
  simpl. induction (matches a s) as [| x xs IH]; simpl; [discriminate |].
  destruct (matches b (fst x)) as [| w2 l2] eqn:E; simpl.
  - intros H. destruct (IH H) as (w1 & w2 & l2 & H1 & H2 & Hf & Hs).
    exists w1, w2, l2. repeat split; try assumption. now right.
  - intros H. injection H as <- _. exists x, w2, l2.
    repeat split; try assumption. now left.
Qed.

Lemma hd_grp (i : nat) (a : regex) (s : string) (w : way) (l : list way) :
  matches (Grp i a) s = w :: l ->
  exists w1 l1 pre,
    matches a s = w1 :: l1 /\ s = pre ++ fst w1 /\
    fst w = fst w1 /\ snd w = (snd w1 ++ [(i, pre)])%list.
Proof.
  simpl. destruct (matches a s) as [| w1 l1] eqn:E; simpl; [discriminate |].
  intros H. injection H as <- _.
  assert (Hin : In w1 (matches a s)) by (rewrite E; now left).
  destruct (matches_prefix a s w1 Hin) as (pre & Ep).
  exists w1, l1, pre. repeat split; try assumption.
  simpl. rewrite Ep at 1 2. now rewrite take_concat.
Qed.

(** The last tail of an unbounded repetition stops at the end of the input
    or in front of a character outside the class. *)
Lemma rep_tails_longest (p : ascii -> bool) (s : string) :
  exists t l z,
    rev (rep_tails p None s) = t :: l /\ s = z ++ t /\
    all_chars p z = true /\ first_char p t = false.
Proof.
  induction s as [| c s IH]; simpl.
  - now exists "", [], "".
  - destruct (p c) eqn:Hp.
    + destruct IH as (t & l & z & Hr & -> & Ha & Hf).
      simpl option_map. rewrite Hr.
      exists t, (l ++ [String c (z ++ t)])%list, (String c z).
      simpl. rewrite Hp, Ha. now repeat split.
    + exists (String c s), [], "". simpl. now repeat split.
Qed.

(** The first way of a greedy unbounded repetition is the longest one. *)
Lemma hd_greedy (p : ascii -> bool) (lo : nat) (s : string) (w : way)
    (l : list way) :
  matches (Rep p lo None true) s = w :: l ->
  exists z,
    s = z ++ fst w /\ all_chars p z = true /\ (lo <= String.length z)%nat /\
    first_char p (fst w) = false /\ snd w = [].
Proof.
  intros H.
  assert (Hin : In w (matches (Rep p lo None true) s)) by (rewrite H; now left).
  apply in_rep in Hin as (z & Ez & Ha & Hl & _ & Hs).
  exists z. repeat split; try assumption.
  simpl in H.
  destruct (rep_tails_longest p s) as (t & l' & z' & Hr & Et & _ & Hf).
  rewrite <- (firstn_skipn lo (rep_tails p None s)), rev_app_distr in Hr.
  destruct (rev (skipn lo (rep_tails p None s))) as [| t0 l0]; [discriminate |].
  simpl in H, Hr. injection H as <- _. injection Hr as -> _. exact Hf.
Qed.

Lemma concat_cancel_r (r : string) :
  forall a b, a ++ r = b ++ r -> a = b.
Proof.
  induction a as [| x a IH]; intros [| y b] E; simpl in E.
  - reflexivity.
  - exfalso. apply (f_equal String.length) in E. simpl in E.
    rewrite length_concat in E. lia.
  - exfalso. apply (f_equal String.length) in E. simpl in E.
    rewrite length_concat in E. lia.
  - injection E as -> E. f_equal. now apply IH.
Qed.

Lemma in_grp_rep (i : nat) (p : ascii -> bool) (lo : nat) (hi : option nat)
    (g : bool) (s : string) (w : way) :
  In w (matches (Grp i (Rep p lo hi g)) s) ->
  exists pre,
    s = pre ++ fst w /\ all_chars p pre = true /\
    (lo <= String.length pre)%nat /\
    match hi with
    | Some h => (String.length pre <= h)%nat
    | None => True
    end /\ snd w = [(i, pre)].
Proof.
  intros Hin. apply in_grp in Hin as (w1 & pre & H1 & E & Hf & Hs).
  apply in_rep in H1 as (pre' & E' & Ha & Hl & Hb & Hn).
  assert (pre' = pre).
  { rewrite E in E'. symmetry. exact (concat_cancel_r _ _ _ E'). }
  subst pre'. exists pre. rewrite Hf, Hs, Hn. now repeat split.
Qed.

(** A match of the city, state and zip pattern: the city is not empty, one
    white-space character, a state of one or two letters of A-Z, one
    white-space character, and a zip that starts with a digit and runs to
    the end of the line. *)
Lemma cityStateZip_shape (s : string) (m : rmatch) :
  search cityStateZipRegex s = Some m ->
  exists before c a st b z after,
    s = before ++ c ++ String a (st ++ String b (z ++ after)) /\
    groups m = [(1, c); (2, st); (3, z)] /\
    (1 <= String.length c)%nat /\ all_chars dot c = true /\
    space a = true /\ state_code st = true /\ space b = true /\
    first_char digit z = true /\ all_chars dot z = true /\
    first_char dot after = false.
Proof.
  intros Hs.
  apply search_way in Hs as (before & tail & w & l & -> & Hm & Hg & _).
  unfold cityStateZipRegex in Hm.
  apply hd_cat in Hm as (w1 & w2 & l2 & H1 & Hm & Hf2 & Hs2).
  apply in_grp_rep in H1 as (c & -> & Hc & Hlc & _ & Hs1).
  apply hd_cat in Hm as (wa & w3 & l3 & Ha & Hm & Hf3 & Hs3).
  apply in_cls in Ha as (a & Ea & Hpa & Hsa).
  apply hd_cat in Hm as (wst & w4 & l4 & Hst & Hm & Hf4 & Hs4).
  apply in_grp_rep in Hst as (st & Est & Hpst & Hl1 & Hl2 & Hsst).
  apply hd_cat in Hm as (wb & w5 & l5 & Hb & Hm & Hf5 & Hs5).
  apply in_cls in Hb as (b & Eb & Hpb & Hsb).
  apply hd_cat in Hm as (wd & w6 & l6 & Hd & Hm & Hf6 & Hs6).
  apply in_ahead in Hd as (Efd & wd1 & Hd1 & Hsd).
  apply in_cls in Hd1 as (d & Ed & Hpd & Hsd1).
  apply hd_grp in Hm as (w7 & l7 & z & Hm & Ez & Hf7 & Hs7).
  apply hd_greedy in Hm as (z' & Ez' & Hz & _ & Hend & Hs8).
  rewrite Efd in Ez.
  exists before, c, a, st, b, z, (fst w7).
  rewrite Ea, Est, Eb, <- Ez.
  assert (z' = z).
  { symmetry. apply (concat_cancel_r (fst w7)). now rewrite <- Ez, <- Ez'. }
  subst z'.
  repeat split; try assumption; try reflexivity.
  - rewrite Hg, Hs2, Hs1, Hs3, Hsa, Hs4, Hsst, Hs5, Hsb, Hs6, Hsd, Hsd1, Hs7, Hs8.
    reflexivity.
  - unfold state_code.
    rewrite Hpst, (proj2 (Nat.leb_le _ _) Hl1), (proj2 (Nat.leb_le _ _) Hl2).
    reflexivity.
  - rewrite Ed in Ez. destruct z as [| x z].
    + simpl in Ez. rewrite <- Ez in Hend. simpl in Hend.
      unfold dot, digit, between in *.
      apply andb_prop in Hpd as [Hlo Hhi].
      apply Nat.leb_le in Hlo.
      apply negb_false_iff, Nat.eqb_eq in Hend. lia.
    + simpl in Ez. injection Ez as -> _. exact Hpd.
Qed.

(** A match of the address pattern: one to five digits, at least one
    character that is no digit, and then at least one more character, up to
    the end of the line; the one group is the whole match. *)
Lemma address_shape (s : string) (m : rmatch) :
  search addressRegex s = Some m ->
  exists before ds nd tl after,
    s = before ++ (ds ++ nd ++ tl) ++ after /\
    groups m = [(1, ds ++ nd ++ tl)] /\
    all_chars digit ds = true /\ (1 <= String.length ds <= 5)%nat /\
    all_chars nondigit nd = true /\ (1 <= String.length nd)%nat /\
    all_chars dot tl = true /\ (1 <= String.length tl)%nat /\
    first_char dot after = false.
Proof.
  intros Hs.
  apply search_way in Hs as (before & tail & w & l & -> & Hm & Hg & _).
  unfold addressRegex in Hm.
  apply hd_grp in Hm as (w1 & l1 & a & Hm & Ea & Hf1 & Hs1).
  apply hd_cat in Hm as (wd & w2 & l2 & Hd & Hm & Hf2 & Hs2).
  apply in_rep in Hd as (ds & Eds & Hpd & Hd1 & Hd5 & Hsd).
  apply hd_cat in Hm as (wn & w3 & l3 & Hn & Hm & Hf3 & Hs3).
  apply in_rep in Hn as (nd & End & Hpn & Hn1 & _ & Hsn).
  apply hd_greedy in Hm as (tl & Etl & Hpt & Ht1 & Hend & Hst).
  assert (Ha : a = ds ++ nd ++ tl).
  { apply (concat_cancel_r (fst w3)).
    rewrite !concat_assoc, <- Etl, <- End, <- Eds, <- Hf3, <- Hf2. now symmetry. }
  subst a.
  exists before, ds, nd, tl, (fst w3).
  rewrite Hf2, Hf3 in Ea.
  repeat split; try assumption.
  - now rewrite Ea.
  - rewrite Hg, Hs1, Hs2, Hsd, Hs3, Hsn, Hst. reflexivity.
Qed.

Lemma first_char_concat (p : ascii -> bool) (a b : string) :
  first_char p a = true -> first_char p (a ++ b) = true.
Proof.
  destruct a; [discriminate | trivial].
Qed.

Lemma all_first (p : ascii -> bool) (s : string) :
  all_chars p s = true -> (1 <= String.length s)%nat -> first_char p s = true.
Proof.
  destruct s as [| c s]; simpl; [lia |].
  intros H _. now apply andb_prop in H as [H _].
Qed.

Lemma digit_not_nondigit (s : string) :
  first_char digit s = true -> all_chars nondigit s = false.
Proof.
  destruct s as [| c s]; [discriminate |].
  simpl. unfold nondigit. now intros ->.
Qed.

(** A line with no digit in it does not parse as city, state and zip. *)
Lemma no_digit_no_cityStateZip (s : string) :
  all_chars nondigit s = true -> search cityStateZipRegex s = None.
Proof.
  intros Hn.
  destruct (search cityStateZipRegex s) as [m |] eqn:Hs; [| reflexivity].
  apply cityStateZip_shape in Hs
    as (before & c & a & st & b & z & after & -> & _ & _ & _ & _ & _ & _ & Hz & _).
  repeat (rewrite ?all_chars_concat in Hn; cbn [all_chars] in Hn).
  rewrite (digit_not_nondigit z Hz) in Hn.
  repeat rewrite ?andb_false_r, ?andb_false_l in Hn.
  discriminate Hn.
Qed.

(** ** Line 4 parsed as city, state and zip *)

Lemma group_of (m : rmatch) (i : nat) (t : string) :
  lookup i (groups m) = Some t -> group (Some m) i = ret (VStr t).
Proof.
  intros H. unfold group. now rewrite H.
Qed.

(** The iteration of a row whose line 4 parses, computed. *)
Lemma line4_domestic_run (l : Locals) (row : Row) (m : rmatch)
    (c st z : string) :
  mail_addr4 row <> " " -> mail_addr4 row <> "UNKNOWN" ->
  mem (lower (mail_addr4 row)) countriesList = false ->
  search cityStateZipRegex (mail_addr4 row) = Some m ->
  groups m = [(1, c); (2, st); (3, z)] ->
  parse_row l row =
    let o := owner_name row ++ " " ++ mail_addr1 row ++ " " ++ mail_addr2 row in
    if po_box_line3 (mail_addr3 row)
    then Next (columns o (mail_addr3 row) c st z "")
              (locals o (mail_addr3 row) c st z "")
    else
      match search addressRegex (mail_addr3 row) with
      | None => Throw AttributeError
      | Some ma =>
          match lookup 1 (groups ma) with
          | Some a => Next (columns o a c st z "") (locals o a c st z "")
          | None => Next (columns o "" c st z "") (locals o "" c st z "")
          end
      end.
Proof.
  intros Hb Hu Hc Hs Hg.
  unfold parse_row. rewrite (proj2 (ladder_mail_addr4 row) Hb).
  unfold run_rung, rung_mail_addr4, po_box_line3. cbv zeta.
  apply String.eqb_neq in Hu. rewrite Hu, Hc, Hs.
  unfold assign_group.
  rewrite (group_of m 1 c), (group_of m 2 st), (group_of m 3 z)
    by (rewrite Hg; reflexivity).
  destruct (startswith (mail_addr3 row) "PO" || startswith (mail_addr3 row) "P O");
    [reflexivity |].
  destruct (contains "PO BOX" (mail_addr3 row)
            || contains "P O BOX" (mail_addr3 row)
            || contains "P.O. BOX" (mail_addr3 row)); [reflexivity |].
  simpl orb. cbv iota.
  destruct (search addressRegex (mail_addr3 row)) as [ma |] eqn:Ha;
    [| reflexivity].
  destruct (lookup_defined 1 (groups ma)) as [a Hl].
  { rewrite (search_defines _ _ _ Ha). simpl. tauto. }
  unfold group. rewrite Hl. reflexivity.
Qed.

(** X1: when a row whose line 4 is present, is not UNKNOWN and is not a
    known country gets its columns written, line 4 reads: some text, the
    city (not empty), one white-space character, the state (one or two
    letters of A-Z), one white-space character, the zip (it starts with a
    digit and runs to the end of the line). The country is empty and the
    owner is the owner name, line 1 and line 2 joined by single spaces. *)
Theorem line4_city_state_zip (l l' : Locals) (row : Row) (o : Ownership) :
  mail_addr4 row <> " " -> mail_addr4 row <> "UNKNOWN" ->
  mem (lower (mail_addr4 row)) countriesList = false ->
  parse_row l row = Next o l' ->
  exists before c a st b z after,
    mail_addr4 row = before ++ c ++ String a (st ++ String b (z ++ after)) /\
    owner_city o = VStr c /\ owner_state o = VStr st /\
    owner_zip o = VStr z /\ owner_country o = VStr "" /\
    owner o = VStr (owner_name row ++ " " ++ mail_addr1 row ++ " "
                    ++ mail_addr2 row) /\
    (1 <= String.length c)%nat /\ space a = true /\ state_code st = true /\
    space b = true /\ first_char digit z = true /\
    first_char dot after = false.
Proof.
  intros Hb Hu Hc Hp.
  destruct (search cityStateZipRegex (mail_addr4 row)) as [m |] eqn:Hs.
  2:{ rewrite (skip_unparseable l row) in Hp by (repeat split; assumption).
      discriminate Hp. }
  destruct (cityStateZip_shape _ _ Hs)
    as (before & c & a & st & b & z & after & E & Hg & Hc1 & _ & Ha & Hst & Hsb
        & Hz & _ & Hend).
  rewrite (line4_domestic_run l row m c st z Hb Hu Hc Hs Hg) in Hp.
  cbv zeta in Hp.
  exists before, c, a, st, b, z, after.
  destruct (po_box_line3 (mail_addr3 row)).
  - injection Hp as <- _. now repeat split.
  - destruct (search addressRegex (mail_addr3 row)) as [ma |];
      [| discriminate Hp].
    destruct (lookup 1 (groups ma)); injection Hp as <- _; now repeat split.
Qed.

Lemma line4_city_state_zip_witness :
  exists before c a st b z after,
    mail_addr4 tahoe_row
      = before ++ c ++ String a (st ++ String b (z ++ after)) /\
    VStr "SOUTH LAKE TAHOE" = VStr c /\ VStr "CA" = VStr st /\
    VStr "96150" = VStr z /\ VStr "" = VStr "" /\
    VStr "SMITH JOHN    " = VStr ("SMITH JOHN" ++ " " ++ " " ++ " " ++ " ") /\
    (1 <= String.length c)%nat /\ space a = true /\ state_code st = true /\
    space b = true /\ first_char digit z = true /\
    first_char dot after = false.
Proof.
  refine (line4_city_state_zip unbound _ tahoe_row _ _ _ _ eq_refl);
    [discriminate | discriminate | reflexivity].
Defined.

(** X2: for such a row the address is line 3 as it is when line 3 starts
    with PO or P O or holds PO BOX, P O BOX or P.O. BOX; otherwise it is a
    piece of line 3 that starts with a digit (a run of at most five digits
    followed by a character that is no digit) and runs to the end of the
    line: the text in front of the street number is dropped, the number is
    kept. *)
Theorem line4_address (l l' : Locals) (row : Row) (o : Ownership) :
  mail_addr4 row <> " " -> mail_addr4 row <> "UNKNOWN" ->
  mem (lower (mail_addr4 row)) countriesList = false ->
  parse_row l row = Next o l' ->
  (po_box_line3 (mail_addr3 row) = true /\
   owner_address o = VStr (mail_addr3 row)) \/
  (po_box_line3 (mail_addr3 row) = false /\
   exists before ds nd tl after,
     mail_addr3 row = before ++ (ds ++ nd ++ tl) ++ after /\
     owner_address o = VStr (ds ++ nd ++ tl) /\
     all_chars digit ds = true /\ (1 <= String.length ds <= 5)%nat /\
     first_char nondigit nd = true /\ first_char dot after = false).
Proof.
  intros Hb Hu Hc Hp.
  destruct (search cityStateZipRegex (mail_addr4 row)) as [m |] eqn:Hs.
  2:{ rewrite (skip_unparseable l row) in Hp by (repeat split; assumption).
      discriminate Hp. }
  destruct (cityStateZip_shape _ _ Hs)
    as (_ & c & _ & st & _ & z & _ & _ & Hg & _).
  rewrite (line4_domestic_run l row m c st z Hb Hu Hc Hs Hg) in Hp.
  cbv zeta in Hp.
  destruct (po_box_line3 (mail_addr3 row)).
  - left. injection Hp as <- _. now split.
  - right. split; [reflexivity |].
    destruct (search addressRegex (mail_addr3 row)) as [ma |] eqn:Ha;
      [| discriminate Hp].
    destruct (address_shape _ _ Ha)
      as (before & ds & nd & tl & after & E & Hga & Hd & Hdl & Hn & Hnl & _ & _
          & Hend).
    rewrite Hga in Hp. simpl in Hp. injection Hp as <- _.
    exists before, ds, nd, tl, after. repeat split; try assumption; try lia.
    now apply all_first.
Qed.

Lemma line4_address_witness :
  (po_box_line3 (mail_addr3 tahoe_row) = true /\
   VStr "123 MAIN ST" = VStr (mail_addr3 tahoe_row)) \/
  (po_box_line3 (mail_addr3 tahoe_row) = false /\
   exists before ds nd tl after,
     mail_addr3 tahoe_row = before ++ (ds ++ nd ++ tl) ++ after /\
     VStr "123 MAIN ST" = VStr (ds ++ nd ++ tl) /\
     all_chars digit ds = true /\ (1 <= String.length ds <= 5)%nat /\
     first_char nondigit nd = true /\ first_char dot after = false).
Proof.
  refine (line4_address unbound _ tahoe_row _ _ _ _ eq_refl);
    [discriminate | discriminate | reflexivity].
Defined.

(** X3: a row whose line 4 is present, is not UNKNOWN, is not a known
    country and holds no digit is passed over: without a digit there is no
    zip, so the city, state and zip pattern cannot match. *)
Theorem digitless_line4_is_skipped (l : Locals) (row : Row) :
  mail_addr4 row <> " " -> mail_addr4 row <> "UNKNOWN" ->
  mem (lower (mail_addr4 row)) countriesList = false ->
  all_chars nondigit (mail_addr4 row) = true ->
  parse_row l row = Continue l.
Proof.
  intros Hb Hu Hc Hn. apply skip_unparseable.
  repeat split; try assumption. now apply no_digit_no_cityStateZip.
Qed.

Lemma digitless_line4_is_skipped_witness :
  parse_row unbound digitless_row = Continue unbound.
Proof.
  apply digitless_line4_is_skipped;
    [discriminate | discriminate | reflexivity | reflexivity].
Defined.

(** X4: line 205 has no test for [None]. When line 4 parses as city, state
    and zip and line 3 has neither a PO box form nor a match of the address
    pattern, the iteration raises AttributeError, whatever the locals. *)
Theorem line3_without_number_raises (l : Locals) (row : Row) :
  mail_addr4 row <> " " -> mail_addr4 row <> "UNKNOWN" ->
  mem (lower (mail_addr4 row)) countriesList = false ->
  search cityStateZipRegex (mail_addr4 row) <> None ->
  po_box_line3 (mail_addr3 row) = false ->
  search addressRegex (mail_addr3 row) = None ->
  parse_row l row = Throw AttributeError.
Proof.
  intros Hb Hu Hc Hs Hpo Ha.
  destruct (search cityStateZipRegex (mail_addr4 row)) as [m |] eqn:E;
    [| contradiction].
  destruct (cityStateZip_shape _ _ E)
    as (_ & c & _ & st & _ & z & _ & _ & Hg & _).
  rewrite (line4_domestic_run l row m c st z Hb Hu Hc E Hg).
  cbv zeta. now rewrite Hpo, Ha.
Qed.

Lemma line3_without_number_raises_witness :
  parse_row unbound numberless_row = Throw AttributeError.
Proof.
  apply line3_without_number_raises;
    [discriminate | discriminate | reflexivity | discriminate
    | reflexivity | reflexivity].
Defined.

(** ** Line 3, the United States, and the blank rungs *)

(** X5: with line 4 blank and line 3 present, a line 3 that does not parse
    as city, state and zip is taken for a country: country = line 3, city =
    line 2, address = line 1, owner = the owner name, state and zip empty;
    nothing of the row is looked at any further. *)
Theorem line3_unparsed_is_country (l : Locals) (row : Row) :
  mail_addr4 row = " " -> mail_addr3 row <> " " ->
  search cityStateZipRegex (mail_addr3 row) = None ->
  parse_row l row =
    Next (columns (owner_name row) (mail_addr1 row) (mail_addr2 row) "" ""
                  (mail_addr3 row))
         (locals (owner_name row) (mail_addr1 row) (mail_addr2 row) "" ""
                 (mail_addr3 row)).
Proof.
  intros H4 H3 Hs. unfold parse_row.
  rewrite (proj2 (ladder_mail_addr3 row) (conj H4 H3)).
  unfold run_rung, rung_mail_addr3. cbv zeta. rewrite Hs. reflexivity.
Qed.

Lemma line3_unparsed_is_country_witness :
  parse_row unbound france_row =
    Next (columns "MARTIN LUC" "12 RUE DE LA PAIX" "75002 PARIS" "" "" "FRANCE")
         (locals "MARTIN LUC" "12 RUE DE LA PAIX" "75002 PARIS" "" "" "FRANCE").
Proof.
  apply (line3_unparsed_is_country unbound france_row);
    [reflexivity | discriminate | reflexivity].
Defined.

(** The iteration of a row of the line-3 rung whose line 3 parses. *)
Lemma line3_domestic_run (l : Locals) (row : Row) (m : rmatch)
    (c st z : string) :
  mail_addr4 row = " " -> mail_addr3 row <> " " ->
  search cityStateZipRegex (mail_addr3 row) = Some m ->
  groups m = [(1, c); (2, st); (3, z)] ->
  parse_row l row =
    let o := owner_name row ++ " " ++ mail_addr1 row in
    let row2 := sanitized (mail_addr2 row) in
    if kept_line2 row2
    then Next (columns o row2 c st z "") (locals o row2 c st z "")
    else
      match search addressRegex row2 with
      | None => Next (columns o "None" c st z "") (locals o "None" c st z "")
      | Some ma =>
          match lookup 1 (groups ma) with
          | Some a => Next (columns o a c st z "") (locals o a c st z "")
          | None => Next (columns o "" c st z "") (locals o "" c st z "")
          end
      end.
Proof.
  intros H4 H3 Hs Hg. unfold parse_row.
  rewrite (proj2 (ladder_mail_addr3 row) (conj H4 H3)).
  unfold run_rung, rung_mail_addr3, kept_line2, sanitized. cbv zeta.
  rewrite Hs. unfold assign_group.
  rewrite (group_of m 1 c), (group_of m 2 st), (group_of m 3 z)
    by (rewrite Hg; reflexivity).
  set (row2 := if startswith (mail_addr2 row) " " then _ else _).
  destruct (startswith row2 "PO" || startswith row2 "P O"
            || startswith row2 "P.O."); [reflexivity |].
  destruct (contains "PO BOX" row2 || contains "P O BOX" row2
            || startswith row2 "ONE " || startswith row2 "TWO ");
    [reflexivity |].
  simpl orb. cbv iota.
  destruct (search addressRegex row2) as [ma |] eqn:Ha; [| reflexivity].
  destruct (lookup_defined 1 (groups ma)) as [a Hl].
  { rewrite (search_defines _ _ _ Ha). simpl. tauto. }
  unfold group. rewrite Hl. reflexivity.
Qed.

(** X6: with line 4 blank and line 3 parsed as city, state and zip, a
    line 2 that (after one leading space is cut) has no PO box form, does
    not start with ONE or TWO and has no match of the address pattern gives
    the address the four letters None, a string and not an empty column;
    the owner is the owner name and line 1 joined by a space. *)
Theorem line3_address_none_literal (l l' : Locals) (row : Row)
    (o : Ownership) :
  mail_addr4 row = " " -> mail_addr3 row <> " " ->
  search cityStateZipRegex (mail_addr3 row) <> None ->
  kept_line2 (sanitized (mail_addr2 row)) = false ->
  search addressRegex (sanitized (mail_addr2 row)) = None ->
  parse_row l row = Next o l' ->
  owner_address o = VStr "None" /\
  owner o = VStr (owner_name row ++ " " ++ mail_addr1 row) /\
  owner_country o = VStr "".
Proof.
  intros H4 H3 Hs Hk Ha Hp.
  destruct (search cityStateZipRegex (mail_addr3 row)) as [m |] eqn:E;
    [| contradiction].
  destruct (cityStateZip_shape _ _ E)
    as (_ & c & _ & st & _ & z & _ & _ & Hg & _).
  rewrite (line3_domestic_run l row m c st z H4 H3 E Hg) in Hp.
  cbv zeta in Hp. rewrite Hk, Ha in Hp. injection Hp as <- _.
  now repeat split.
Qed.

Lemma line3_address_none_literal_witness :
  parse_row unbound care_of_row =
    Next (columns "SMITH JOHN JONES MARY" "None" "RENO" "NV" "89501" "")
         (locals "SMITH JOHN JONES MARY" "None" "RENO" "NV" "89501" "") /\
  VStr "None" = VStr "None" /\
  VStr "SMITH JOHN JONES MARY" = VStr ("SMITH JOHN" ++ " " ++ "JONES MARY") /\
  VStr "" = VStr "".
Proof.
  split; [reflexivity |].
  refine (line3_address_none_literal unbound _ care_of_row _ _ _ _ _ _ eq_refl);
    [reflexivity | discriminate | discriminate | reflexivity | reflexivity].
Defined.

(** X7: the line-3 rung never raises and never passes a row over: with
    line 4 blank and line 3 present every row gets six strings, whatever
    the locals left by earlier rows. *)
Theorem line3_rung_always_writes (l : Locals) (row : Row) :
  mail_addr4 row = " " -> mail_addr3 row <> " " ->
  six_strings (parse_row l row).
Proof.
  intros H4 H3. unfold parse_row.
  rewrite (proj2 (ladder_mail_addr3 row) (conj H4 H3)).
  apply rung3_six.
Qed.

Lemma line3_rung_always_writes_witness :
  six_strings (parse_row unbound care_of_row).
Proof.
  apply line3_rung_always_writes; [reflexivity | discriminate].
Defined.

(** X8: a parcel of the United States (lines 4 and 3 blank, the owner the
    literal) gets the owner, line 1 as it is for address and an empty
    country; city, state and zip come from line 2 when it parses as city,
    state and zip (then the state is one or two letters of A-Z and the zip
    starts with a digit) and are empty otherwise. The rung never raises. *)
Theorem united_states_columns (l : Locals) (row : Row) :
  mail_addr4 row = " " -> mail_addr3 row = " " -> owner_name row = usa ->
  exists c st z,
    parse_row l row = Next (columns usa (mail_addr1 row) c st z "")
                           (locals usa (mail_addr1 row) c st z "") /\
    (search cityStateZipRegex (mail_addr2 row) = None ->
     c = "" /\ st = "" /\ z = "") /\
    (search cityStateZipRegex (mail_addr2 row) <> None ->
     occurs_in c (mail_addr2 row) /\ state_code st = true /\
     first_char digit z = true).
Proof.
  intros H4 H3 Ho. unfold parse_row.
  rewrite (proj2 (ladder_united_states row) (conj H4 (conj H3 Ho))).
  unfold run_rung, rung_united_states. cbv zeta. rewrite Ho.
  destruct (search cityStateZipRegex (mail_addr2 row)) as [m |] eqn:Hs.
  - destruct (cityStateZip_shape _ _ Hs)
      as (before & c & a & st & b & z & after & E & Hg & _ & _ & _ & Hst & _
          & Hz & _).
    exists c, st, z. unfold assign_group.
    rewrite (group_of m 1 c), (group_of m 2 st), (group_of m 3 z)
      by (rewrite Hg; reflexivity).
    split; [reflexivity |]. split; [discriminate |].
    intros _. repeat split; try assumption.
    exists before, (String a (st ++ String b (z ++ after))). exact E.
  - exists "", "", "". split; [reflexivity |].
    split; [now intros _ | intros H; contradiction].
Qed.

Lemma united_states_columns_witness :
  exists c st z,
    parse_row unbound federal_row =
      Next (columns usa "2800 COTTAGE WAY" c st z "")
           (locals usa "2800 COTTAGE WAY" c st z "") /\
    (search cityStateZipRegex (mail_addr2 federal_row) = None ->
     c = "" /\ st = "" /\ z = "") /\
    (search cityStateZipRegex (mail_addr2 federal_row) <> None ->
     occurs_in c (mail_addr2 federal_row) /\ state_code st = true /\
     first_char digit z = true).
Proof.
  exact (united_states_columns unbound federal_row eq_refl eq_refl eq_refl).
Defined.

(** X9: with lines 4 and 3 blank, a blank owner name empties all six
    columns, whatever lines 1 and 2 hold; and with an owner that is neither
    blank nor the United States, a blank line 1 leaves the owner name alone
    with five empty columns, whatever line 2 holds. *)
Theorem blank_owner_or_line1 (l : Locals) (row : Row) :
  mail_addr4 row = " " -> mail_addr3 row = " " ->
  (owner_name row = " " ->
   parse_row l row = Next (columns "" "" "" "" "" "")
                          (locals "" "" "" "" "" "")) /\
  (owner_name row <> " " -> owner_name row <> usa -> mail_addr1 row = " " ->
   parse_row l row = Next (columns (owner_name row) "" "" "" "" "")
                          (locals (owner_name row) "" "" "" "" "")).
Proof.
  intros H4 H3. split.
  - intros Ho. unfold parse_row.
    rewrite (proj2 (ladder_blank_owner row) (conj H4 (conj H3 Ho))).
    reflexivity.
  - intros Ho Hu H1. unfold parse_row.
    rewrite (proj2 (ladder_blank_addr1 row)
               (conj H4 (conj H3 (conj Hu (conj Ho H1))))).
    reflexivity.
Qed.

Lemma blank_owner_or_line1_witness :
  parse_row unbound ownerless_row =
    Next (columns "" "" "" "" "" "") (locals "" "" "" "" "" "") /\
  parse_row unbound no_line1_row =
    Next (columns "SMITH JOHN" "" "" "" "" "")
         (locals "SMITH JOHN" "" "" "" "" "").
Proof.
  split.
  - exact (proj1 (blank_owner_or_line1 unbound ownerless_row eq_refl eq_refl)
             eq_refl).
  - refine (proj2 (blank_owner_or_line1 unbound no_line1_row eq_refl eq_refl)
              _ _ eq_refl); discriminate.
Defined.
(** ** The last rung when line 2 does not parse *)

Lemma in_grp_lit (i : nat) (t s : string) (w : way) :
  In w (matches (Grp i (Lit t)) s) -> s = t ++ fst w /\ snd w = [(i, t)].
Proof.
  intros Hin. apply in_grp in Hin as (w1 & pre & H1 & E & Hf & Hs).
  apply in_lit in H1 as (E' & Hn).
  assert (pre = t).
  { rewrite E in E'. exact (concat_cancel_r _ _ _ E'). }
  subst pre. rewrite Hf, Hs, Hn. now split.
Qed.

(** A match of the Canada pattern. *)
Lemma canada_shape (s : string) (m : rmatch) :
  search canadaRegex s = Some m ->
  exists before c a st b x z after,
    s = before ++ c ++ String a (st ++ String b
          ("CANADA" ++ String x (z ++ after))) /\
    groups m = [(1, c); (2, st); (3, "CANADA"); (4, z)] /\
    (1 <= String.length c)%nat /\ all_chars dot c = true /\
    space a = true /\ state_code st = true /\ space b = true /\
    space x = true /\ all_chars dot z = true /\
    first_char dot after = false.
Proof.
  intros Hs.
  apply search_way in Hs as (before & tail & w & l & -> & Hm & Hg & _).
  unfold canadaRegex in Hm.
  apply hd_cat in Hm as (w1 & w2 & l2 & H1 & Hm & _ & Hs2).
  apply in_grp_rep in H1 as (c & -> & Hc & Hlc & _ & Hs1).
  apply hd_cat in Hm as (wa & w3 & l3 & Ha & Hm & _ & Hs3).
  apply in_cls in Ha as (a & Ea & Hpa & Hsa).
  apply hd_cat in Hm as (wst & w4 & l4 & Hst & Hm & _ & Hs4).
  apply in_grp_rep in Hst as (st & Est & Hpst & Hl1 & Hl2 & Hsst).
  apply hd_cat in Hm as (wb & w5 & l5 & Hb & Hm & _ & Hs5).
  apply in_cls in Hb as (b & Eb & Hpb & Hsb).
  apply hd_cat in Hm as (wk & w6 & l6 & Hk & Hm & _ & Hs6).
  apply in_grp_lit in Hk as (Ek & Hsk).
  apply hd_cat in Hm as (wc & w7 & l7 & Hx & Hm & _ & Hs7).
  apply in_cls in Hx as (x & Ex & Hpx & Hsx).
  apply hd_grp in Hm as (w8 & l8 & z & Hm & Ez & _ & Hs8).
  apply hd_greedy in Hm as (z' & Ez' & Hz & _ & Hend & Hs9).
  assert (z' = z).
  { symmetry. apply (concat_cancel_r (fst w8)). now rewrite <- Ez, <- Ez'. }
  subst z'.
  exists before, c, a, st, b, x, z, (fst w8).
  rewrite Ea, Est, Eb, Ek, Ex, <- Ez.
  repeat split; try assumption; try reflexivity.
  - rewrite Hg, Hs2, Hs1, Hs3, Hsa, Hs4, Hsst, Hs5, Hsb, Hs6, Hsk, Hs7, Hsx,
      Hs8, Hs9. reflexivity.
  - unfold state_code.
    rewrite Hpst, (proj2 (Nat.leb_le _ _) Hl1), (proj2 (Nat.leb_le _ _) Hl2).
    reflexivity.
Qed.

(** X10: in the last rung, a line 2 that is present, does not parse as
    city, state and zip and names neither CANADA nor BRAZIL assigns nothing
    but the owner. The row is written with the address, city, state, zip
    and country of the row before it; when no row before it assigned them,
    the read of the address raises UnboundLocalError. *)
Theorem unmatched_line2_keeps_previous_row (row : Row)
    (o a c s z k : string) :
  ladder row = MailAddr2 -> mail_addr2 row <> " " ->
  search cityStateZipRegex (mail_addr2 row) = None ->
  contains "CANADA" (mail_addr2 row) = false ->
  contains "BRAZIL" (mail_addr2 row) = false ->
  parse_row (locals o a c s z k) row =
    Next (columns (owner_name row) a c s z k)
         (locals (owner_name row) a c s z k) /\
  parse_row unbound row = Throw (UnboundLocalError "address").
Proof.
  intros Hl H2 Hs Hca Hbr. unfold parse_row. rewrite Hl.
  unfold run_rung, rung_mail_addr2, mail_addr2_foreign. cbv zeta.
  apply String.eqb_neq in H2. rewrite H2, Hs, Hca, Hbr.
  split; reflexivity.
Qed.

Lemma unmatched_line2_keeps_previous_row_witness :
  parse_row (locals "SMITH JOHN    " "123 MAIN ST" "SOUTH LAKE TAHOE" "CA"
                    "96150" "") england_row =
    Next (columns "HILL TOM" "123 MAIN ST" "SOUTH LAKE TAHOE" "CA" "96150" "")
         (locals "HILL TOM" "123 MAIN ST" "SOUTH LAKE TAHOE" "CA" "96150" "") /\
  parse_row unbound england_row = Throw (UnboundLocalError "address").
Proof.
  apply (unmatched_line2_keeps_previous_row england_row);
    [reflexivity | discriminate | reflexivity | reflexivity | reflexivity].
Defined.

(** X11: in the last rung, a line 2 that does not parse as city, state and
    zip and names CANADA (and not BRAZIL) is matched against the Canada
    pattern with no test of the result. When the pattern fails the
    iteration raises AttributeError, on the first row as on any other. When
    it matches, city, state and zip are the groups 1, 2 and 4 of the match
    and the country is its group 3: line 2 reads, from some point on, the
    city, a white space, the state (one or two letters of A-Z), a white
    space, CANADA, a white space and the zip, which runs to the end of the
    line. No address is assigned: the row gets the address that the rows
    before it left, and the iteration raises UnboundLocalError when they
    left none. *)
Theorem canada_line2 (row : Row) :
  ladder row = MailAddr2 -> mail_addr2 row <> " " ->
  search cityStateZipRegex (mail_addr2 row) = None ->
  contains "CANADA" (mail_addr2 row) = true ->
  contains "BRAZIL" (mail_addr2 row) = false ->
  (search canadaRegex (mail_addr2 row) = None ->
   forall l, parse_row l row = Throw AttributeError) /\
  (forall m, search canadaRegex (mail_addr2 row) = Some m ->
   exists before c a st b x z after,
     groups m = [(1, c); (2, st); (3, "CANADA"); (4, z)] /\
     mail_addr2 row =
       before ++ c ++ String a (st ++ String b
         ("CANADA" ++ String x (z ++ after))) /\
     (1 <= String.length c)%nat /\ all_chars dot c = true /\
     space a = true /\ state_code st = true /\ space b = true /\
     space x = true /\ all_chars dot z = true /\
     first_char dot after = false /\
     forall l,
       parse_row l row =
         match v_address l with
         | Some addr =>
             Next {| owner := VStr (owner_name row); owner_address := addr;
                     owner_city := VStr c; owner_state := VStr st;
                     owner_zip := VStr z; owner_country := VStr "CANADA" |}
                  {| v_owner := Some (VStr (owner_name row));
                     v_address := Some addr;
                     v_city := Some (VStr c); v_state := Some (VStr st);
                     v_zipCode := Some (VStr z);
                     v_country := Some (VStr "CANADA") |}
         | None => Throw (UnboundLocalError "address")
         end).
Proof.
  intros Hl H2 Hs Hca Hbr.
  apply String.eqb_neq in H2.
  split.
  - intros Hm l. unfold parse_row. rewrite Hl.
    unfold run_rung, rung_mail_addr2, mail_addr2_foreign. cbv zeta.
    rewrite H2, Hs, Hca, Hbr, Hm. reflexivity.
  - intros m Hm.
    destruct (canada_shape _ _ Hm)
      as (before & c & a & st & b & x & z & after & E & Hg & Hc & Hdc & Ha
          & Hst & Hb & Hx & Hz & Hend).
    exists before, c, a, st, b, x, z, after.
    repeat (split; [assumption |]).
    intros l. unfold parse_row. rewrite Hl.
    unfold run_rung, rung_mail_addr2, mail_addr2_foreign. cbv zeta.
    rewrite H2, Hs, Hca, Hbr, Hm. unfold assign_group.
    rewrite (group_of m 1 c), (group_of m 2 st), (group_of m 3 "CANADA"),
      (group_of m 4 z) by (rewrite Hg; reflexivity).
    destruct l as [lo [addr |] lc ls lz lk]; reflexivity.
Qed.

Lemma canada_line2_witness :
  parse_row unbound bare_canada_row = Throw AttributeError /\
  parse_row (locals "SMITH JOHN    " "123 MAIN ST" "SOUTH LAKE TAHOE" "CA"
                    "96150" "") canada_row =
    Next (columns "ROY ANNE" "123 MAIN ST" "VANCOUVER" "BC" "V6B 1A1" "CANADA")
         (locals "ROY ANNE" "123 MAIN ST" "VANCOUVER" "BC" "V6B 1A1" "CANADA") /\
  parse_row unbound canada_row = Throw (UnboundLocalError "address").
Proof.
  split.
  - refine (proj1 (canada_line2 bare_canada_row _ _ _ _ _) eq_refl unbound);
      [reflexivity | discriminate | reflexivity | reflexivity | reflexivity].
  - assert (H : exists m, search canadaRegex (mail_addr2 canada_row) = Some m)
      by (eexists; reflexivity).
    destruct H as (m & Hm).
    pose proof Hm as Hv. vm_compute in Hv. injection Hv as Hv.
    destruct (proj2 (canada_line2 canada_row eq_refl
                       ltac:(discriminate) eq_refl eq_refl eq_refl) m Hm)
      as (before & c & a & st & b & x & z & after & Hg & _ & _ & _ & _ & _
          & _ & _ & _ & _ & Hrun).
    rewrite <- Hv in Hg. simpl in Hg.
    injection Hg as <- <- <-.
    split; [exact (Hrun (locals _ _ _ _ _ _)) | exact (Hrun unbound)].
Defined.

(** ** Rows that do not depend on the rows before them *)

Ltac same_groups Hs :=
  let c := fresh "c" in
  let st := fresh "st" in
  let z := fresh "z" in
  let Hg1 := fresh "Hg" in
  let Hg2 := fresh "Hg" in
  let Hg3 := fresh "Hg" in
  destruct (cityStateZip_groups _ _ Hs) as (c & st & z & Hg1 & Hg2 & Hg3);
  unfold assign_group; rewrite Hg1, Hg2, Hg3.

(** The outcome of a row, from the outcome it has as first row. *)
Lemma parse_row_from_first (l : Locals) (row : Row) :
  foreign_line2 row = false ->
  parse_row l row =
    match parse_row unbound row with
    | Continue _ => Continue l
    | r => r
    end.
Proof.
  intros Hf. unfold foreign_line2 in Hf. unfold parse_row.
  destruct (ladder row) eqn:Hl.
  - unfold run_rung, rung_mail_addr4. cbv zeta.
    destruct (String.eqb_spec (mail_addr4 row) "UNKNOWN") as [E | E];
      [rewrite E; reflexivity |].
    destruct (mem (lower (mail_addr4 row)) countriesList); [reflexivity |].
    destruct (search cityStateZipRegex (mail_addr4 row)) as [m |] eqn:Hs;
      [| reflexivity].
    same_groups Hs.
    destruct (startswith (mail_addr3 row) "PO"
              || startswith (mail_addr3 row) "P O"); [reflexivity |].
    destruct (contains "PO BOX" (mail_addr3 row)
              || contains "P O BOX" (mail_addr3 row)
              || contains "P.O. BOX" (mail_addr3 row)); [reflexivity |].
    destruct (search addressRegex (mail_addr3 row)) as [ma |] eqn:Ha;
      [| reflexivity].
    destruct (address_group _ _ Ha) as (t & Ht). rewrite Ht. reflexivity.
  - unfold run_rung, rung_mail_addr3. cbv zeta.
    destruct (search cityStateZipRegex (mail_addr3 row)) as [m |] eqn:Hs;
      [| reflexivity].
    same_groups Hs.
    set (row2 := if startswith (mail_addr2 row) " " then _ else _).
    destruct (startswith row2 "PO" || startswith row2 "P O"
              || startswith row2 "P.O."); [reflexivity |].
    destruct (contains "PO BOX" row2 || contains "P O BOX" row2
              || startswith row2 "ONE " || startswith row2 "TWO ");
      [reflexivity |].
    destruct (search addressRegex row2) as [ma |] eqn:Ha; [| reflexivity].
    destruct (address_group _ _ Ha) as (t & Ht). rewrite Ht. reflexivity.
  - unfold run_rung, rung_united_states. cbv zeta.
    destruct (search cityStateZipRegex (mail_addr2 row)) as [m |] eqn:Hs;
      [| reflexivity].
    same_groups Hs. reflexivity.
  - reflexivity.
  - reflexivity.
  - unfold run_rung, rung_mail_addr2. cbv zeta.
    destruct (mail_addr2 row =? " "); [reflexivity |].
    destruct (search cityStateZipRegex (mail_addr2 row)) as [m |] eqn:Hs;
      [| discriminate Hf].
    unfold mail_addr2_domestic. same_groups Hs. cbv zeta.
    set (row1 := if startswith (mail_addr1 row) " " then _ else _).
    destruct (startswith row1 "PO" || startswith row1 "P.O."
              || startswith row1 "P O" || startswith row1 "P  O");
      [reflexivity |].
    destruct (contains "PO BOX" row1 || contains "P O BOX" row1).
    + destruct (search poBoxRegex row1) as [b |] eqn:Hp; [| reflexivity].
      destruct (poBox_group _ _ Hp) as (t & Ht). rewrite Ht. reflexivity.
    + destruct (search addressRegex row1) as [ma |] eqn:Ha; [| reflexivity].
      simpl is_none. simpl orb.
      destruct (startswith row1 "ONE"); [reflexivity |].
      destruct (address_group _ _ Ha) as (t & Ht). rewrite Ht. reflexivity.
Qed.

(** X12: the outcome of a row does not depend on the rows before it, except
    in the one case of the last rung with a line 2 that is present and does
    not parse as city, state and zip: outside that case a row always gets
    the same columns, or is always passed over, or always raises the same
    exception, whatever the locals hold. *)
Theorem parse_row_forgets_history (row : Row) :
  foreign_line2 row = false -> uniform (fun l => parse_row l row).
Proof.
  intros Hf. unfold uniform.
  destruct (parse_row unbound row) as [o m | m | e] eqn:E.
  - left. exists o, m. intros l.
    rewrite (parse_row_from_first l row Hf), E. reflexivity.
  - right. left. intros l.
    rewrite (parse_row_from_first l row Hf), E. reflexivity.
  - right. right. exists e. intros l.
    rewrite (parse_row_from_first l row Hf), E. reflexivity.
Qed.

Lemma parse_row_forgets_history_witness :
  uniform (fun l => parse_row l tahoe_row).
Proof.
  exact (parse_row_forgets_history tahoe_row eq_refl).
Defined.

(** ** The known countries *)

Lemma lower_char_j (c : ascii) :
  lower_char c = "j"%char -> either_case "j" "J" c.
Proof.
  unfold either_case.
  destruct c as [[] [] [] [] [] [] [] []]; vm_compute; intros H;
    try discriminate H; auto.
Qed.

Lemma lower_char_a (c : ascii) :
  lower_char c = "a"%char -> either_case "a" "A" c.
Proof.
  unfold either_case.
  destruct c as [[] [] [] [] [] [] [] []]; vm_compute; intros H;
    try discriminate H; auto.
Qed.

Lemma lower_char_p (c : ascii) :
  lower_char c = "p"%char -> either_case "p" "P" c.
Proof.
  unfold either_case.
  destruct c as [[] [] [] [] [] [] [] []]; vm_compute; intros H;
    try discriminate H; auto.
Qed.

Lemma lower_char_n (c : ascii) :
  lower_char c = "n"%char -> either_case "n" "N" c.
Proof.
  unfold either_case.
  destruct c as [[] [] [] [] [] [] [] []]; vm_compute; intros H;
    try discriminate H; auto.
Qed.

(** X13: line 4 counts as a known country exactly when it is the five
    letters of japan, each in either case, and nothing else: no blank
    before or after is cut, and no other spelling or country is known. *)
Theorem known_country_is_japan (row4 : string) :
  mem (lower row4) countriesList = true <->
  exists c1 c2 c3 c4 c5,
    row4 = String c1 (String c2 (String c3 (String c4 (String c5 "")))) /\
    either_case "j" "J" c1 /\ either_case "a" "A" c2 /\
    either_case "p" "P" c3 /\ either_case "a" "A" c4 /\
    either_case "n" "N" c5.
Proof.
  unfold mem, countriesList. simpl existsb. rewrite orb_false_r.
  rewrite String.eqb_eq. split.
  - intros H.
    destruct row4 as [| c1 [| c2 [| c3 [| c4 [| c5 [| c6 r]]]]]];
      simpl in H; try discriminate H.
    injection H as H1 H2 H3 H4 H5.
    exists c1, c2, c3, c4, c5. split; [reflexivity |].
    repeat split;
      [now apply lower_char_j | now apply lower_char_a | now apply lower_char_p
      | now apply lower_char_a | now apply lower_char_n].
  - intros (c1 & c2 & c3 & c4 & c5 & -> & [-> | ->] & [-> | ->] & [-> | ->]
            & [-> | ->] & [-> | ->]); reflexivity.
Qed.

Lemma known_country_is_japan_witness :
  mem (lower "jApAn") countriesList = true /\
  mem (lower "JAPAN ") countriesList = false.
Proof.
  split; [| reflexivity].
  apply (proj2 (known_country_is_japan "jApAn")).
  exists "j"%char, "A"%char, "p"%char, "A"%char, "n"%char.
  unfold either_case. repeat split; auto.
Defined.

(** ** More on the legacy parcel id *)

Lemma take_concat_exact (a b : string) : take (String.length a) (a ++ b) = a.
Proof.
  induction a as [| c a IH]; simpl; [now destruct b | now rewrite IH].
Qed.

Lemma drop_concat_exact (a b : string) : drop (String.length a) (a ++ b) = b.
Proof.
  induction a as [| c a IH]; simpl; [now destruct b | exact IH].
Qed.

(** X14: the key keeps the first six and the last two characters and
    nothing of what lies between them: two identifiers that agree on those
    eight characters get the same key, whatever their middles and their
    lengths. *)
Theorem derive_ignores_middle (head middle tail : string) :
  String.length head = 6%nat -> String.length tail = 2%nat ->
  derive (head ++ middle ++ tail) = head ++ tail.
Proof.
  intros Hh Ht. rewrite derive_take_drop. f_equal.
  - rewrite <- Hh. apply take_concat_exact.
  - rewrite <- concat_assoc.
    replace (String.length ((head ++ middle) ++ tail) - 2)%nat
      with (String.length (head ++ middle)).
    + apply drop_concat_exact.
    + rewrite (length_concat (head ++ middle) tail). lia.
Qed.

Lemma derive_ignores_middle_witness :
  derive ("060123" ++ "0456" ++ "01") = "060123" ++ "01" /\
  derive ("060123" ++ "99" ++ "01") = "060123" ++ "01".
Proof.
  split.
  - exact (derive_ignores_middle "060123" "0456" "01" eq_refl eq_refl).
  - exact (derive_ignores_middle "060123" "99" "01" eq_refl eq_refl).
Defined.

(** X15: on an identifier of 8 characters the key is the identifier itself,
    and on one of at least 8 characters deriving twice gives what deriving
    once gives. *)
Theorem derive_idempotent (sourceId : string) :
  (String.length sourceId = 8%nat -> derive sourceId = sourceId) /\
  ((8 <= String.length sourceId)%nat ->
   derive (derive sourceId) = derive sourceId).
Proof.
  assert (H8 : forall s, String.length s = 8%nat -> derive s = s).
  { intros s H.
    destruct s as [| c1 [| c2 [| c3 [| c4 [| c5 [| c6 [| c7 [| c8 [| c9 r]]]]]]]]];
      try discriminate H. reflexivity. }
  split; [apply H8 |].
  intros H. apply H8.
  rewrite derive_take_drop, length_concat, length_take, length_drop. lia.
Qed.

Lemma derive_idempotent_witness :
  derive "06012301" = "06012301" /\
  derive (derive "060123045601") = derive "060123045601".
Proof.
  split.
  - exact (proj1 (derive_idempotent "06012301") eq_refl).
  - apply (proj2 (derive_idempotent "060123045601")). simpl. lia.
Defined.

(** ** The reload as a whole *)

Lemma get_count_zero (fs : list Feature) :
  (get_count fs =? "0") = true <-> fs = [].
Proof.
  split; [| intros ->; reflexivity].
  intros H. apply String.eqb_eq in H. unfold get_count in H.
  destruct fs as [| f fs]; [reflexivity |]. exfalso.
  pose proof (DecimalNat.Unsigned.of_to (List.length (f :: fs))) as Hn.
  destruct (Nat.to_uint (List.length (f :: fs))) as [| u | u | u | u | u | u | u | u | u | u];
    simpl in H; try discriminate H.
  - simpl in Hn. discriminate Hn.
  - injection H as H. destruct u; try discriminate H.
    simpl in Hn. discriminate Hn.
Qed.

Lemma map_fresh_nil (rows : list Row) : map fresh rows = [] <-> rows = [].
Proof.
  destruct rows; simpl; split; intros H; try reflexivity; discriminate H.
Qed.

Lemma parse_loop_columns (fs : list Feature) :
  forall (l : Locals) (parsed : list Feature),
    parse_loop l fs = Ok parsed ->
    map raw parsed = map raw fs /\
    map prcl_id_join parsed = map prcl_id_join fs.
Proof.
  induction fs as [| f fs IH]; intros l parsed H; simpl in H.
  - injection H as <-. now split.
  - destruct (parse_row l (raw f)) as [o l' | l' | e]; [| | discriminate H];
      (destruct (parse_loop l' fs) as [done | e] eqn:E; [| discriminate H]);
      injection H as <-;
      destruct (IH l' done E) as (Hr & Hj);
      simpl; rewrite Hr, Hj; now split.
Qed.




(** X16: the row loop keeps every row and the order of the rows: when it
    ends without raising, the rows it returns carry the source columns of
    the rows it was given, one for one, rows passed over included, and it
    leaves the join key column alone. *)
Theorem parse_loop_keeps_rows (fs parsed : list Feature) (l : Locals) :
  parse_loop l fs = Ok parsed ->
  map raw parsed = map raw fs /\
  map prcl_id_join parsed = map prcl_id_join fs /\
  List.length parsed = List.length fs.
Proof.
  intros H. destruct (parse_loop_columns fs l parsed H) as (Hr & Hj).
  repeat split; try assumption.
  rewrite <- (length_map raw parsed), Hr. apply length_map.
Qed.

Lemma parse_loop_keeps_rows_witness :
  map raw [fresh nowhere_row;
           {| raw := tahoe_row;
              own := columns "SMITH JOHN    " "123 MAIN ST" "SOUTH LAKE TAHOE"
                             "CA" "96150" "";
              prcl_id_join := VNone |}]
    = map raw [fresh nowhere_row; fresh tahoe_row].
Proof.
  exact (proj1 (parse_loop_keeps_rows [fresh nowhere_row; fresh tahoe_row]
                  _ unbound eq_refl)).
Defined.


Lemma counted_rows (rows : list Row) (b : bool) :
  (get_count (map fresh rows) =? "0") = b ->
  if b then rows = [] else rows <> [].
Proof.
  intros H. destruct b.
  - now apply map_fresh_nil, get_count_zero.
  - intros ->. discriminate H.
Qed.

(** The run of [main], split at every point where it can take two ways. *)
Ltac run_main env :=
  unfold after_run; steps;
  repeat (match goal with
          | |- context [raises env ?h ?c] =>
              destruct (raises env h c) eqn:?Hcall
          | |- context [edcLastUpdate env] =>
              destruct (edcLastUpdate env) as [?edc | ?e] eqn:?He
          | |- context [sltLastUpdate env] =>
              destruct (sltLastUpdate env) as [?slt | ?e] eqn:?Hs
          | |- context [dt_ne ?a ?b] => destruct (dt_ne a b) eqn:?Hd
          | |- context [existing_zip env] =>
              destruct (existing_zip env) eqn:?Hz
          | |- context [extract env] =>
              destruct (extract env) as [?rows | ?e] eqn:?Hx
          | |- context [get_count (map fresh ?r) =? "0"] =>
              let Hc := fresh "Hc" in
              destruct (get_count (map fresh r) =? "0") eqn:Hc;
              apply counted_rows in Hc
          | |- context [parse_loop unbound (map fresh ?r)] =>
              destruct (parse_loop unbound (map fresh r))
                as [?parsed | ?e] eqn:?Hp
          end; simpl).

(** A run whose append raises: the handler mails the error, and the table
    was truncated before. *)
Example append_raises_after_truncate :
  main (failing_env table_locked 1700000000000001 (Ok [tahoe_row]))
       (start [fresh japan_row]) =
    (Ok tt,
     {| destination := [];
        events :=
          [SendMail error_subject error_body;
           Log ERROR "Python Errors:";
           Log ERROR "There was an error";
           Append [tahoe_loaded];
           Log INFO "Old parcels truncated";
           TruncateTable;
           Log INFO "Creating legacy parcel ID";
           Log INFO "Parsing ownership and address info...";
           AddFields;
           DeleteField "OBJECTID";
           GetCount;
           SubmitJob;
           Log INFO "Requesting parcels from EDC";
           Log INFO "Parcels need updating";
           LogDate "Local newest date: " local_ahead;
           LogDate "EDC newest date: " remote_sample;
           Log INFO "Starting Script"] |}).
Proof. reflexivity. Qed.


(** ** The handler *)

(** The [try] block sends no mail with the subject of the error mail. *)
Lemma try_body_no_error_mail (env : Env) (d : list Feature) :
  existsb (is_mail error_subject) (events (snd (try_body env (start d))))
    = false.
Proof. run_main env; reflexivity. Qed.

(** [main] is its [try] block, with the handler run after it when it
    raises. *)
Lemma main_handles (env : Env) (d : list Feature) :
  main env (start d) =
    match fst (try_body env (start d)) with
    | Ok _ => try_body env (start d)
    | Raise _ =>
        (handled env (events (snd (try_body env (start d)))),
         mailed env (snd (try_body env (start d))))
    end.
Proof.
  unfold main, try_except, handled, mailed.
  destruct (try_body env (start d)) as [[u | x] w]; simpl; [reflexivity |].
  unfold on_error, email_smtp, Orchestrator.call, log, emit, mbind. simpl.
  destruct (raises env _ _); reflexivity.
Qed.

(** X18: the error mail is called for exactly when the [try] block raises,
    whichever call or step of it raised: a date that cannot be read, the
    extraction, the row loop, or a call on arcpy, shutil or smtplib, also
    one made after the destination was truncated or replaced. Then the
    handler logs the error and calls for the error mail as the last call of
    the run, the destination stays as the [try] block left it, and [main]
    returns normally unless that mail call raises. When the [try] block
    does not raise, [main] ends as the block does. So an error mail does
    not tell that the destination is as it was: when the deletion of the
    zip folder raises after the append, the error mail is sent and the
    destination holds the new rows. *)
Theorem error_mail_iff_raised (env : Env) (d : list Feature) :
  (existsb (is_mail error_subject) (events (after_run env d)) = true <->
   exists e, fst (try_body env (start d)) = Raise e) /\
  (forall e, fst (try_body env (start d)) = Raise e ->
   main env (start d) =
     (handled env (events (snd (try_body env (start d)))),
      mailed env (snd (try_body env (start d))))) /\
  (fst (try_body env (start d)) = Ok tt ->
   main env (start d) = try_body env (start d)) /\
  main (failing_env zip_locked 1700000000000001 (Ok [tahoe_row]))
       (start [fresh japan_row]) =
    (Ok tt,
     {| destination := [tahoe_loaded];
        events :=
          [SendMail error_subject error_body;
           Log ERROR "Python Errors:";
           Log ERROR "There was an error";
           Rmtree;
           Log INFO "New parcels copied";
           Append [tahoe_loaded];
           Log INFO "Old parcels truncated";
           TruncateTable;
           Log INFO "Creating legacy parcel ID";
           Log INFO "Parsing ownership and address info...";
           AddFields;
           DeleteField "OBJECTID";
           GetCount;
           SubmitJob;
           Log INFO "Requesting parcels from EDC";
           Log INFO "Parcels need updating";
           LogDate "Local newest date: " local_ahead;
           LogDate "EDC newest date: " remote_sample;
           Log INFO "Starting Script"] |}).
Proof.
  pose proof (main_handles env d) as Hm.
  pose proof (try_body_no_error_mail env d) as Hn.
  split; [| split; [| split; [| reflexivity]]].
  - unfold after_run. rewrite Hm.
    destruct (fst (try_body env (start d))) as [u | x]; split.
    + intros H. rewrite Hn in H. discriminate H.
    + intros (e & H). discriminate H.
    + intros _. now exists x.
    + intros _. reflexivity.
  - intros e H. rewrite Hm, H. reflexivity.
  - intros H. rewrite Hm, H. reflexivity.
Qed.

Lemma error_mail_iff_raised_witness :
  fst (try_body undated_env (start [fresh japan_row])) = Raise StopIteration /\
  existsb (is_mail error_subject)
    (events (after_run undated_env [fresh japan_row])) = true /\
  main undated_env (start [fresh japan_row]) =
    (Ok tt, stopped_early undated_env [fresh japan_row]).
Proof.
  assert (H : fst (try_body undated_env (start [fresh japan_row]))
              = Raise StopIteration) by reflexivity.
  split; [exact H |]. split.
  - apply (proj2 (proj1 (error_mail_iff_raised undated_env
                           [fresh japan_row]))).
    now exists StopIteration.
  - exact (proj1 (proj2 (error_mail_iff_raised undated_env
                           [fresh japan_row])) StopIteration H).
Defined.

Lemma main_dates_unreadable (env : Env) (d : list Feature) :
  (exists e, edcLastUpdate env = Raise e) \/
  (exists e, sltLastUpdate env = Raise e) ->
  main env (start d) =
    (handled env [Log INFO "Starting Script"], stopped_early env d).
Proof.
  intros H. rewrite main_handles.
  unfold try_body, mbind, lift, log, emit, start. simpl.
  destruct (edcLastUpdate env) as [edc | e1]; [| reflexivity].
  destruct H as [(e & H) | (e & H)]; [discriminate H |].
  rewrite H. reflexivity.
Qed.

(** X19: when a date cannot be read the run stops in the handler before any
    job is submitted: an empty result of the local date query (the
    destination has no dated row) raises StopIteration, a remote date that
    [fromtimestamp] does not take raises there, and a remote date that is
    an ambiguous or missing Pacific wall time raises in [localize]. The run
    logs the error, calls for the error mail and does nothing else; it
    returns normally unless that mail call raises. *)
Theorem unreadable_date_stops_run (env : Env) (d : list Feature) :
  local_dates env = [] \/
  (exists e, fromtimestamp env (remote_date env) = Raise e) \/
  (exists naive e,
     fromtimestamp env (remote_date env) = Ok naive /\
     pacific_localize env naive = Raise e) ->
  main env (start d) =
    (handled env [Log INFO "Starting Script"], stopped_early env d) /\
  (quiet env -> main env (start d) = (Ok tt, stopped_early env d)) /\
  existsb is_submit (events (after_run env d)) = false.
Proof.
  intros H.
  assert (Hm : main env (start d) =
               (handled env [Log INFO "Starting Script"], stopped_early env d)).
  { apply main_dates_unreadable.
    destruct H as [H | [(e & H) | (naive & e & H1 & H2)]].
    - right. exists StopIteration. unfold sltLastUpdate. now rewrite H.
    - left. exists e. unfold edcLastUpdate. now rewrite H.
    - left. exists e. unfold edcLastUpdate. now rewrite H1, H2. }
  split; [exact Hm |]. split.
  - intros Hq. rewrite Hm. unfold handled. now rewrite Hq.
  - unfold after_run. rewrite Hm. reflexivity.
Qed.

Lemma unreadable_date_stops_run_witness :
  main undated_env (start []) = (Ok tt, stopped_early undated_env []) /\
  main ambiguous_env (start []) = (Ok tt, stopped_early ambiguous_env []).
Proof.
  split.
  - refine (proj1 (proj2 (unreadable_date_stops_run undated_env []
                            (or_introl eq_refl))) _).
    intros h e. reflexivity.
  - refine (proj1 (proj2 (unreadable_date_stops_run ambiguous_env [] _)) _).
    + right. right. exists (1699174800000000 + pst)%Z, AmbiguousTimeError.
      split; reflexivity.
    + intros h e. reflexivity.
Defined.

(** X20: the remote date is read by [fromtimestamp] as wall time of the
    machine's own zone, and that wall time is then called Pacific. Where
    [fromtimestamp] gives the date to the microsecond, at the machine's
    offset, the instant that the remote date then stands for is the true
    one shifted by the difference between the machine's offset and the
    Pacific one, while the local date keeps its true instant. So on a
    machine whose offset is the Pacific one the run stops as up to date
    when the two dates are the same and goes on to [updateParcels] when
    they differ; on any other machine dates that are the same compare
    unequal and the run goes on to [updateParcels]. With no zip folder left
    over, the job is submitted exactly when the local date differs from the
    shifted remote one. *)
Theorem remote_date_read_in_system_zone (env : Env) (d : list Feature)
    (moff poff local : Z) (rest : list Z) :
  fromtimestamp env (remote_date env)
    = Ok (remote_date env * 1000 + moff)%Z ->
  pacific_localize env (remote_date env * 1000 + moff)%Z = Ok poff ->
  local_dates env = local :: rest ->
  exists edc slt,
    edcLastUpdate env = Ok edc /\ sltLastUpdate env = Ok slt /\
    instant edc = (remote_date env * 1000 + (moff - poff))%Z /\
    instant slt = local /\
    (moff = poff -> local = (remote_date env * 1000)%Z ->
     main env (start d) =
       (Ok tt,
        {| destination := d;
           events := Log INFO "Parcels up to date, stopping script"
                     :: events (checked edc slt d) |})) /\
    (moff = poff -> local <> (remote_date env * 1000)%Z ->
     main env (start d) =
       try_except (updateParcels env) (on_error env)
         {| destination := d;
            events := Log INFO "Parcels need updating"
                      :: events (checked edc slt d) |}) /\
    (moff <> poff -> local = (remote_date env * 1000)%Z ->
     main env (start d) =
       try_except (updateParcels env) (on_error env)
         {| destination := d;
            events := Log INFO "Parcels need updating"
                      :: events (checked edc slt d) |}) /\
    (existing_zip env = false ->
     (existsb is_submit (events (after_run env d)) = true <->
      local <> (remote_date env * 1000 + (moff - poff))%Z)).
Proof.
  intros Hf Hl Hd.
  assert (He : edcLastUpdate env =
               Ok {| wall := (remote_date env * 1000 + moff)%Z;
                     utcoffset := poff |}).
  { unfold edcLastUpdate. now rewrite Hf, Hl. }
  assert (Hs : sltLastUpdate env =
               Ok {| wall := (local - 0 + pacific_offset env (local - 0))%Z;
                     utcoffset := pacific_offset env (local - 0)%Z |}).
  { unfold sltLastUpdate. rewrite Hd. reflexivity. }
  eexists. eexists. split; [exact He |]. split; [exact Hs |].
  assert (Hie : instant {| wall := (remote_date env * 1000 + moff)%Z;
                           utcoffset := poff |}
                = (remote_date env * 1000 + (moff - poff))%Z)
    by (unfold instant; simpl; lia).
  assert (His : instant
                  {| wall := (local - 0 + pacific_offset env (local - 0))%Z;
                     utcoffset := pacific_offset env (local - 0)%Z |}
                = local)
    by (unfold instant; simpl; lia).
  split; [exact Hie |]. split; [exact His |].
  split; [| split; [| split]].
  - intros Ho Heq. apply (main_up_to_date env d _ _ He Hs). lia.
  - intros Ho Hne. apply (main_reloads env d _ _ He Hs). lia.
  - intros Ho Heq. apply (main_reloads env d _ _ He Hs). lia.
  - intros Hz. unfold after_run. split.
    + intros Hx Heq.
      rewrite (main_up_to_date env d _ _ He Hs) in Hx by lia.
      discriminate Hx.
    + intros Hne. rewrite (main_reloads env d _ _ He Hs) by lia.
      unfold try_except.
      match goal with
      | |- context [updateParcels env ?w] =>
          pose proof (submit_recorded env w Hz) as Hw;
          destruct (updateParcels env w) as [[u | e] w']
      end; simpl in Hw |- *.
      * exact Hw.
      * unfold on_error, email_smtp, Orchestrator.call, log, emit, mbind. simpl.
        destruct (raises env _ _); simpl; exact Hw.
Qed.

Lemma remote_date_read_in_system_zone_witness :
  hd 0%Z (local_dates (utc_machine_env 1700000000000000 (Ok [])))
    = (remote_date (utc_machine_env 1700000000000000 (Ok [])) * 1000)%Z /\
  existsb is_submit
    (events (after_run (utc_machine_env 1700000000000000 (Ok [])) [])) = true.
Proof.
  split; [reflexivity |].
  destruct (remote_date_read_in_system_zone
              (utc_machine_env 1700000000000000 (Ok [])) []
              0%Z pst 1700000000000000%Z [] eq_refl eq_refl eq_refl)
    as (edc & slt & _ & _ & _ & _ & _ & _ & _ & H).
  apply (H eq_refl). vm_compute. discriminate.
Defined.


(** ** The extraction job *)

Lemma waiting_status (s : string) :
  waiting s = true ->
  (s =? "esriJobSucceeded") = false /\ (s =? "esriJobFailed") = false.
Proof.
  unfold waiting. intros H. apply orb_prop in H as [H | H];
    apply String.eqb_eq in H; subst s; split; reflexivity.
Qed.

(** Replies that keep the loop waiting are polled one after the other, a
    sleep before each. *)
Lemma poll_waits (jobID : string) (jobResult : option string)
    (rest : list Reply) (value_url : option string) (pre : list Reply) :
  forall (status : string) (tr : list call),
    waiting status = true -> forallb keeps_waiting pre = true ->
    exists status' tr',
      waiting status' = true /\
      poll jobID status jobResult (pre ++ rest)%list value_url tr
        = poll jobID status' jobResult rest value_url tr' /\
      sleeps tr' = (sleeps tr + List.length pre)%nat.
Proof.
  induction pre as [| r pre IH]; intros status tr Hw Hk.
  - exists status, tr. repeat split; try assumption. simpl. lia.
  - simpl in Hk. apply andb_prop in Hk as [Hr Hk].
    simpl app. cbn [poll]. rewrite Hw. unfold keeps_waiting in Hr.
    destruct (jobStatus r) as [s |].
    + destruct (waiting_status s Hr) as [E1 E2]. rewrite E1, E2.
      destruct (IH s (HttpGet (jobURL ++ "/" ++ jobID ++ "?f=json")
                      :: Sleep 5 :: tr) Hr Hk)
        as (status' & tr' & Hw' & Hp & Hs).
      exists status', tr'. repeat split; try assumption.
      rewrite Hs. unfold sleeps. simpl. lia.
    + destruct (IH status (HttpGet (jobURL ++ "/" ++ jobID ++ "?f=json")
                           :: Sleep 5 :: tr) Hw Hk)
        as (status' & tr' & Hw' & Hp & Hs).
      exists status', tr'. repeat split; try assumption.
      rewrite Hs. unfold sleeps. simpl. lia.
Qed.

(** The calls of [request_parcels] before the loop, when the job was
    accepted with a status that the loop waits on. *)
Lemma request_accepted (submit : Reply) (replies : list Reply)
    (value_url : option string) (jobID status : string) :
  jobId submit = Some jobID -> jobStatus submit = Some status ->
  waiting status = true ->
  request_parcels submit replies value_url =
    poll jobID status None replies value_url
      [LogInfo "EDC job submitted"; HttpGet submitURL;
       LogInfo "Requesting parcels from EDC"].
Proof.
  intros Hi Hs Hw. unfold request_parcels. now rewrite Hi, Hs, Hw.
Qed.

(** X21: when the reply to the submit request has no job id, or has a
    status that the loop does not wait on (a job that is already done
    included), the loop is never entered, nothing is downloaded and line
    133 raises UnboundLocalError on jobResult, whatever the server would
    answer next. *)
Theorem no_poll_no_download (submit : Reply) (replies : list Reply)
    (value_url : option string) :
  jobId submit = None \/
  (exists jobID status,
     jobId submit = Some jobID /\ jobStatus submit = Some status /\
     waiting status = false) ->
  request_parcels submit replies value_url =
    ([HttpGet submitURL; LogInfo "Requesting parcels from EDC"],
     Raised (UnboundLocal "jobResult")).
Proof.
  intros [H | (jobID & status & Hi & Hs & Hw)]; unfold request_parcels.
  - rewrite H. reflexivity.
  - rewrite Hi, Hs, Hw. destruct replies; simpl; rewrite Hw; reflexivity.
Qed.

Lemma no_poll_no_download_witness :
  request_parcels succeeded [succeeded] (Some "https://host/extract.zip") =
    ([HttpGet submitURL; LogInfo "Requesting parcels from EDC"],
     Raised (UnboundLocal "jobResult")).
Proof.
  apply no_poll_no_download. right.
  exists "j42", "esriJobSucceeded". repeat split; reflexivity.
Defined.

(** X22: the loop polls every five seconds for as long as the replies have
    no status or one of the two it waits on, and it has no bound: after any
    number of such replies it is still polling, has slept once per reply
    and has neither downloaded nor raised. *)
Theorem polling_has_no_ceiling (submit : Reply) (replies : list Reply)
    (value_url : option string) (jobID status : string) :
  jobId submit = Some jobID -> jobStatus submit = Some status ->
  waiting status = true -> forallb keeps_waiting replies = true ->
  snd (request_parcels submit replies value_url) = Polling /\
  sleeps (fst (request_parcels submit replies value_url))
    = List.length replies.
Proof.
  intros Hi Hs Hw Hk.
  rewrite (request_accepted submit replies value_url jobID status Hi Hs Hw).
  destruct (poll_waits jobID None [] value_url replies status
              [LogInfo "EDC job submitted"; HttpGet submitURL;
               LogInfo "Requesting parcels from EDC"] Hw Hk)
    as (status' & tr' & Hw' & Hp & Hsl).
  rewrite app_nil_r in Hp. rewrite Hp. simpl. rewrite Hw'. simpl.
  split; [reflexivity | exact Hsl].
Qed.

Lemma polling_has_no_ceiling_witness :
  snd (request_parcels submitted (repeat executing 1000) None) = Polling /\
  sleeps (fst (request_parcels submitted (repeat executing 1000) None))
    = List.length (repeat executing 1000).
Proof.
  apply (polling_has_no_ceiling submitted (repeat executing 1000) None
           "j42" "esriJobSubmitted"); reflexivity.
Defined.

(** X23: the loop stops at the first reply whose status is esriJobFailed:
    it logs the failure, and the server's messages when the reply has
    them, and raises ValueError; it has slept once per reply read, and the
    replies after that one and the result body play no part. *)
Theorem failed_job_raises (submit r : Reply) (pre rest : list Reply)
    (value_url : option string) (jobID status : string) :
  jobId submit = Some jobID -> jobStatus submit = Some status ->
  waiting status = true -> forallb keeps_waiting pre = true ->
  jobStatus r = Some "esriJobFailed" ->
  exists tr,
    request_parcels submit (pre ++ r :: rest)%list value_url =
      ((match messages r with
        | Some m => [LogError m]
        | None => []
        end ++ LogError "EDC server job failure" :: tr)%list,
       Raised (JobFailed "EDC job failed!")) /\
    sleeps tr = S (List.length pre).
Proof.
  intros Hi Hs Hw Hk Hr.
  rewrite (request_accepted submit _ value_url jobID status Hi Hs Hw).
  destruct (poll_waits jobID None (r :: rest) value_url pre status
              [LogInfo "EDC job submitted"; HttpGet submitURL;
               LogInfo "Requesting parcels from EDC"] Hw Hk)
    as (status' & tr' & Hw' & Hp & Hsl).
  rewrite Hp. cbn [poll]. rewrite Hw', Hr. simpl String.eqb. cbv iota.
  eexists. split; [reflexivity |].
  unfold sleeps in *. simpl. rewrite Hsl. simpl. lia.
Qed.

Lemma failed_job_raises_witness :
  exists tr,
    request_parcels submitted [executing; executing; failed; succeeded]
      (Some "https://host/extract.zip") =
      ([LogError "out of memory"; LogError "EDC server job failure"] ++ tr,
       Raised (JobFailed "EDC job failed!"))%list /\
    sleeps tr = 3%nat.
Proof.
  exact (failed_job_raises submitted failed [executing; executing] [succeeded]
           (Some "https://host/extract.zip") "j42" "esriJobSubmitted"
           eq_refl eq_refl eq_refl eq_refl eq_refl).
Defined.

(** X24: the loop stops at the first reply whose status is
    esriJobSucceeded. When that reply has results with the path of the zip
    parameter, the script requests that parameter under the job's URL, then
    requests the address found in the body of the answer, and the download
    is done; the replies after that one play no part. *)
Theorem succeeded_job_downloads (submit r : Reply) (pre rest : list Reply)
    (jobID status resultURL url : string) :
  jobId submit = Some jobID -> jobStatus submit = Some status ->
  waiting status = true -> forallb keeps_waiting pre = true ->
  jobStatus r = Some "esriJobSucceeded" ->
  results r = Some (Some resultURL) ->
  exists tr,
    request_parcels submit (pre ++ r :: rest)%list (Some url) =
      (LogInfo "Downloaded ZIP from EDC" :: HttpGet url
       :: HttpGet (jobURL ++ "/" ++ jobID ++ "/" ++ resultURL
                   ++ "?f=json&returnType=data")
       :: LogInfo "Downloading ZIP from EDC"
       :: LogInfo "EDC server job completed" :: tr,
       Zip url) /\
    sleeps tr = S (List.length pre).
Proof.
  intros Hi Hs Hw Hk Hr Hres.
  rewrite (request_accepted submit _ (Some url) jobID status Hi Hs Hw).
  destruct (poll_waits jobID None (r :: rest) (Some url) pre status
              [LogInfo "EDC job submitted"; HttpGet submitURL;
               LogInfo "Requesting parcels from EDC"] Hw Hk)
    as (status' & tr' & Hw' & Hp & Hsl).
  rewrite Hp. cbn [poll]. rewrite Hw', Hr, Hres. simpl String.eqb. cbv iota.
  eexists. split.
  - destruct rest; reflexivity.
  - unfold sleeps in *. simpl. rewrite Hsl. simpl. lia.
Qed.

Lemma succeeded_job_downloads_witness :
  exists tr,
    request_parcels submitted [executing; succeeded; failed]
      (Some "https://host/extract.zip") =
      (LogInfo "Downloaded ZIP from EDC" :: HttpGet "https://host/extract.zip"
       :: HttpGet (jobURL ++ "/" ++ "j42" ++ "/" ++ "results/Output_Zip_File"
                   ++ "?f=json&returnType=data")
       :: LogInfo "Downloading ZIP from EDC"
       :: LogInfo "EDC server job completed" :: tr,
       Zip "https://host/extract.zip") /\
    sleeps tr = 2%nat.
Proof.
  exact (succeeded_job_downloads submitted succeeded [executing] [failed]
           "j42" "esriJobSubmitted" "results/Output_Zip_File"
           "https://host/extract.zip"
           eq_refl eq_refl eq_refl eq_refl eq_refl eq_refl).
Defined.

(** X25: the loop also stops at a reply whose status is none of submitted,
    executing, succeeded and failed (cancelled, timed out, ...), and at a
    succeeded reply without results. Nothing was downloaded then, and line
    133 raises UnboundLocalError on jobResult instead of reporting the
    status. *)
Theorem other_final_status_is_unbound (submit r : Reply)
    (pre rest : list Reply) (value_url : option string)
    (jobID status final : string) :
  jobId submit = Some jobID -> jobStatus submit = Some status ->
  waiting status = true -> forallb keeps_waiting pre = true ->
  jobStatus r = Some final -> waiting final = false ->
  final <> "esriJobFailed" ->
  (final = "esriJobSucceeded" -> results r = None) ->
  snd (request_parcels submit (pre ++ r :: rest)%list value_url)
    = Raised (UnboundLocal "jobResult") /\
  sleeps (fst (request_parcels submit (pre ++ r :: rest)%list value_url))
    = S (List.length pre).
Proof.
  intros Hi Hs Hw Hk Hr Hf Hnf Hres.
  rewrite (request_accepted submit _ value_url jobID status Hi Hs Hw).
  destruct (poll_waits jobID None (r :: rest) value_url pre status
              [LogInfo "EDC job submitted"; HttpGet submitURL;
               LogInfo "Requesting parcels from EDC"] Hw Hk)
    as (status' & tr' & Hw' & Hp & Hsl).
  rewrite Hp. cbn [poll]. rewrite Hw', Hr.
  apply String.eqb_neq in Hnf. rewrite Hnf.
  assert (Hend : forall tr,
             poll jobID final None rest value_url tr
               = (tr, Raised (UnboundLocal "jobResult"))).
  { intros tr. destruct rest; simpl; rewrite Hf; reflexivity. }
  destruct (String.eqb_spec final "esriJobSucceeded") as [E | E].
  - rewrite (Hres E), Hend. simpl. split; [reflexivity |].
    unfold sleeps in *. simpl. rewrite Hsl. simpl. lia.
  - rewrite Hend. simpl. split; [reflexivity |].
    unfold sleeps in *. simpl. rewrite Hsl. simpl. lia.
Qed.

Lemma other_final_status_is_unbound_witness :
  snd (request_parcels submitted [executing; cancelled]
         (Some "https://host/extract.zip"))
    = Raised (UnboundLocal "jobResult") /\
  sleeps (fst (request_parcels submitted [executing; cancelled]
                 (Some "https://host/extract.zip"))) = 2%nat.
Proof.
  refine (other_final_status_is_unbound submitted cancelled [executing] []
            (Some "https://host/extract.zip") "j42" "esriJobSubmitted"
            "esriJobCancelled" eq_refl eq_refl eq_refl eq_refl eq_refl eq_refl
            _ _); discriminate.
Defined.

(** ** The last rung when line 2 parses *)

(** A match of the PO box pattern: the second group is a PO box. *)
Lemma poBox_shape (s : string) (m : rmatch) :
  search poBoxRegex s = Some m ->
  exists name a,
    groups m = [(1, name); (2, a)] /\ po_box_text a /\ occurs_in a s.
Proof.
  intros Hs.
  apply search_way in Hs as (before & tail & w & l & -> & Hm & Hg & _).
  unfold poBoxRegex in Hm.
  apply hd_cat in Hm as (w1 & w2 & l2 & H1 & Hm & Hf2 & Hs2).
  apply in_grp_rep in H1 as (name & -> & _ & _ & _ & Hs1).
  assert (H2 : In w2 (matches (Cat (Cls nonword)
                (Grp 2 (Cat (Lit "P") (Cat (star space) (Cat (Lit "O BOX")
                   (Cat (star nonword) (range digit 1 6))))))) (fst w1)))
    by (rewrite Hm; now left).
  apply in_cat in H2 as (wx & w3 & Hx & H3 & Hf3 & Hs3).
  apply in_cls in Hx as (x & Ex & _ & Hsx).
  apply in_grp in H3 as (w4 & a & H4 & Ea & Hf4 & Hs4).
  apply in_cat in H4 as (wp & w5 & Hp & H5 & Hf5 & Hs5).
  apply in_lit in Hp as (Ep & Hsp).
  apply in_cat in H5 as (wsp & w6 & Hsp' & H6 & Hf6 & Hs6).
  apply in_rep in Hsp' as (sp & Esp & Hasp & _ & _ & Hssp).
  apply in_cat in H6 as (wo & w7 & Ho & H7 & Hf7 & Hs7).
  apply in_lit in Ho as (Eo & Hso).
  apply in_cat in H7 as (wn & w8 & Hn & H8 & Hf8 & Hs8).
  apply in_rep in Hn as (nw & Enw & Hanw & _ & _ & Hsnw).
  apply in_rep in H8 as (ds & Eds & Hads & Hd1 & Hd6 & Hsds).
  assert (Ha : a = "P" ++ sp ++ "O BOX" ++ nw ++ ds).
  { apply (concat_cancel_r (fst w4)).
    rewrite <- Ea, Ep, Esp, Eo, Enw, Eds, Hf5, Hf6, Hf7, Hf8.
    now rewrite !concat_assoc. }
  exists name, a. split; [| split].
  - rewrite Hg, Hs2, Hs1, Hs3, Hsx, Hs4, Hs5, Hsp, Hs6, Hssp, Hs7, Hso, Hs8,
      Hsnw, Hsds. reflexivity.
  - exists sp, nw, ds. now repeat split.
  - exists (before ++ name ++ String x ""), (fst w4).
    rewrite Ex, Ea. rewrite !concat_assoc. reflexivity.
Qed.

(** The iteration of a row of the last rung whose line 2 parses. *)
Lemma line2_domestic_run (l : Locals) (row : Row) (m : rmatch)
    (c st z : string) :
  ladder row = MailAddr2 -> mail_addr2 row <> " " ->
  search cityStateZipRegex (mail_addr2 row) = Some m ->
  groups m = [(1, c); (2, st); (3, z)] ->
  parse_row l row =
    let o := owner_name row in
    let row1 := sanitized (mail_addr1 row) in
    let wrote a := Next (columns o a c st z "") (locals o a c st z "") in
    if po_start row1 then wrote (mail_addr1 row)
    else if names_po_box row1 then
      match search poBoxRegex row1 with
      | None => wrote row1
      | Some mb =>
          match lookup 2 (groups mb) with
          | Some a => wrote a
          | None => wrote ""
          end
      end
    else
      match search addressRegex row1 with
      | None => wrote row1
      | Some ma =>
          if startswith row1 "ONE" then wrote row1
          else
            match lookup 1 (groups ma) with
            | Some a => wrote a
            | None => wrote ""
            end
      end.
Proof.
  intros Hl H2 Hs Hg. unfold parse_row. rewrite Hl.
  unfold run_rung, rung_mail_addr2, mail_addr2_domestic, po_start,
    names_po_box, sanitized. cbv zeta.
  apply String.eqb_neq in H2. rewrite H2, Hs. unfold assign_group.
  rewrite (group_of m 1 c), (group_of m 2 st), (group_of m 3 z)
    by (rewrite Hg; reflexivity).
  set (row1 := if startswith (mail_addr1 row) " " then _ else _).
  destruct (startswith row1 "PO" || startswith row1 "P.O."
            || startswith row1 "P O" || startswith row1 "P  O");
    [reflexivity |].
  destruct (contains "PO BOX" row1 || contains "P O BOX" row1).
  - destruct (search poBoxRegex row1) as [mb |] eqn:Hp; [| reflexivity].
    destruct (lookup_defined 2 (groups mb)) as [a Ha].
    { rewrite (search_defines _ _ _ Hp). simpl. tauto. }
    unfold group. rewrite Ha. reflexivity.
  - destruct (search addressRegex row1) as [ma |] eqn:Ha; [| reflexivity].
    simpl is_none. simpl orb.
    destruct (startswith row1 "ONE"); [reflexivity |].
    destruct (lookup_defined 1 (groups ma)) as [a Hla].
    { rewrite (search_defines _ _ _ Ha). simpl. tauto. }
    unfold group. rewrite Hla. reflexivity.
Qed.

(** X26: in the last rung (lines 4 and 3 blank, an owner that is neither
    blank nor the United States, line 1 present), a line 2 that parses as
    city, state and zip always gets the row written: the owner is the owner
    name alone, the country is empty, the state is one or two letters of
    A-Z and the zip starts with a digit. When line 1, one leading space
    cut, starts with PO, P.O., P O or P  O the address is line 1 as it is,
    the leading space included. *)
Theorem line2_city_state_zip (l : Locals) (row : Row) :
  ladder row = MailAddr2 -> mail_addr2 row <> " " ->
  search cityStateZipRegex (mail_addr2 row) <> None ->
  exists a c st z,
    parse_row l row = Next (columns (owner_name row) a c st z "")
                           (locals (owner_name row) a c st z "") /\
    occurs_in c (mail_addr2 row) /\ state_code st = true /\
    first_char digit z = true /\
    (po_start (sanitized (mail_addr1 row)) = true -> a = mail_addr1 row).
Proof.
  intros Hl H2 Hs.
  destruct (search cityStateZipRegex (mail_addr2 row)) as [m |] eqn:E;
    [| contradiction].
  destruct (cityStateZip_shape _ _ E)
    as (before & c & x & st & y & z & after & Eq & Hg & _ & _ & _ & Hst & _
        & Hz & _).
  rewrite (line2_domestic_run l row m c st z Hl H2 E Hg). cbv zeta.
  assert (Hc : occurs_in c (mail_addr2 row)).
  { exists before, (String x (st ++ String y (z ++ after))). exact Eq. }
  destruct (po_start (sanitized (mail_addr1 row))).
  { exists (mail_addr1 row), c, st, z. now repeat split. }
  destruct (names_po_box (sanitized (mail_addr1 row))).
  { destruct (search poBoxRegex (sanitized (mail_addr1 row))) as [mb |].
    - destruct (lookup 2 (groups mb)) as [a |].
      + exists a, c, st, z. repeat split; try assumption. discriminate.
      + exists "", c, st, z. repeat split; try assumption. discriminate.
    - exists (sanitized (mail_addr1 row)), c, st, z.
      repeat split; try assumption. discriminate. }
  destruct (search addressRegex (sanitized (mail_addr1 row))) as [ma |].
  - destruct (startswith (sanitized (mail_addr1 row)) "ONE").
    + exists (sanitized (mail_addr1 row)), c, st, z.
      repeat split; try assumption. discriminate.
    + destruct (lookup 1 (groups ma)) as [a |].
      * exists a, c, st, z. repeat split; try assumption. discriminate.
      * exists "", c, st, z. repeat split; try assumption. discriminate.
  - exists (sanitized (mail_addr1 row)), c, st, z.
    repeat split; try assumption. discriminate.
Qed.

Lemma line2_city_state_zip_witness :
  exists a c st z,
    parse_row unbound po_box_row =
      Next (columns "SMITH JOHN" a c st z "")
           (locals "SMITH JOHN" a c st z "") /\
    occurs_in c (mail_addr2 po_box_row) /\ state_code st = true /\
    first_char digit z = true /\
    (po_start (sanitized (mail_addr1 po_box_row)) = true ->
     a = mail_addr1 po_box_row).
Proof.
  refine (line2_city_state_zip unbound po_box_row eq_refl _ _); discriminate.
Defined.

(** X27: in the last rung with a line 2 that parses, when line 1 (one
    leading space cut) does not start like a PO box but names PO BOX or
    P O BOX further on, the address is what the PO box pattern captures: P,
    white space, O BOX, characters that are no word characters and at most
    six digits, a piece of line 1; the name in front of it is dropped, and
    so are the digits of the box number after the sixth. When the pattern
    does not match, the address is line 1 with the leading space cut. *)
Theorem po_box_after_name (l l' : Locals) (row : Row) (o : Ownership) :
  ladder row = MailAddr2 -> mail_addr2 row <> " " ->
  search cityStateZipRegex (mail_addr2 row) <> None ->
  po_start (sanitized (mail_addr1 row)) = false ->
  names_po_box (sanitized (mail_addr1 row)) = true ->
  parse_row l row = Next o l' ->
  (search poBoxRegex (sanitized (mail_addr1 row)) = None /\
   owner_address o = VStr (sanitized (mail_addr1 row))) \/
  (exists a,
     owner_address o = VStr a /\ po_box_text a /\
     occurs_in a (sanitized (mail_addr1 row))).
Proof.
  intros Hl H2 Hs Hps Hn Hp.
  destruct (search cityStateZipRegex (mail_addr2 row)) as [m |] eqn:E;
    [| contradiction].
  destruct (cityStateZip_shape _ _ E)
    as (_ & c & _ & st & _ & z & _ & _ & Hg & _).
  rewrite (line2_domestic_run l row m c st z Hl H2 E Hg) in Hp.
  cbv zeta in Hp. rewrite Hps, Hn in Hp.
  destruct (search poBoxRegex (sanitized (mail_addr1 row))) as [mb |] eqn:Hb.
  - right. destruct (poBox_shape _ _ Hb) as (name & a & Hgb & Ha & Hocc).
    rewrite Hgb in Hp. simpl in Hp. injection Hp as <- _.
    exists a. now repeat split.
  - left. injection Hp as <- _. now split.
Qed.

Lemma po_box_after_name_witness :
  (search poBoxRegex (sanitized (mail_addr1 po_box_row)) = None /\
   VStr "PO BOX 123456" = VStr (sanitized (mail_addr1 po_box_row))) \/
  (exists a,
     VStr "PO BOX 123456" = VStr a /\ po_box_text a /\
     occurs_in a (sanitized (mail_addr1 po_box_row))).
Proof.
  refine (po_box_after_name unbound _ po_box_row _ eq_refl _ _ eq_refl eq_refl
            eq_refl); discriminate.
Defined.
